(** * Signal detection engine of the 15-minute scanner (signal_bot_15m.py)

    A shallow embedding of the analysis code of [signal_bot_15m.py]: the
    pattern classifiers, the trend confirmation, the indicator computations
    (RSI, EMA), the composite decision of [analyze_pair] and the boundary
    arithmetic of the scan loop.

    Numbers.  The program computes with Python floats.  The code is
    embedded twice.  In the first embedding candle fields are finite and
    are exact rationals ([Q]); values derived by the indicator code can
    also be IEEE's special values, so they live in [fval]: a rational, an
    infinity, or NaN.  Rounding and the sign of zero are not modelled
    there, and comparisons on [fval] follow IEEE: every comparison with NaN
    is false.  It carries the properties that rounding does not change.
    The second embedding, module [F64], computes with binary64 doubles,
    operation for operation, and carries the decisions that a rounding can
    flip at a tie: the shape tests, the volume filter and the composite
    rule.

    Exceptions are modelled by the [result] monad: [Raise e] is a Python
    exception that propagates, [Ok v] a normal return. *)

From Stdlib Require Import String ZArith QArith Qabs Qminmax Bool List Lia Lqa.
From Stdlib Require PrimFloat FloatOps SpecFloat.
Import ListNotations.
Local Open Scope Q_scope.

(** ** Exceptions *)

Inductive exn : Type :=
| IndexError
| FetchError (msg : string).

Inductive result (A : Type) : Type :=
| Ok (a : A)
| Raise (e : exn).
Arguments Ok {A} a.
Arguments Raise {A} e.

Definition bind {A B : Type} (m : result A) (k : A -> result B) : result B :=
  match m with
  | Ok a => k a
  | Raise e => Raise e
  end.

Notation "x <- m ;; k" := (bind m (fun x => k))
  (at level 61, m at next level, right associativity).

(** ** Float values: exact rationals with IEEE's special values *)

Inductive fval : Type :=
| Fin (q : Q)
| PInf
| NInf
| NaN.

Definition Qeqb0 (q : Q) : bool := Qeq_bool q 0.

Definition fopp (x : fval) : fval :=
  match x with
  | Fin q => Fin (- q)
  | PInf => NInf
  | NInf => PInf
  | NaN => NaN
  end.

Definition fadd (x y : fval) : fval :=
  match x, y with
  | NaN, _ | _, NaN => NaN
  | Fin a, Fin b => Fin (a + b)
  | PInf, NInf | NInf, PInf => NaN
  | PInf, _ | _, PInf => PInf
  | NInf, _ | _, NInf => NInf
  end.

Definition fsub (x y : fval) : fval := fadd x (fopp y).

(* sign of a finite value: 1, 0 or -1 *)
Definition Qsign (q : Q) : Z := Z.sgn (Qnum q).

Definition inf_of_sign (s : Z) : fval :=
  match s with
  | Z0 => NaN
  | Zpos _ => PInf
  | Zneg _ => NInf
  end.

Definition fsign (x : fval) : Z :=
  match x with
  | Fin q => Qsign q
  | PInf => 1%Z
  | NInf => (-1)%Z
  | NaN => 0%Z
  end.

Definition fmul (x y : fval) : fval :=
  match x, y with
  | NaN, _ | _, NaN => NaN
  | Fin a, Fin b => Fin (a * b)
  | _, _ => inf_of_sign (fsign x * fsign y)
  end.

(* IEEE division: x/0 is an infinity of the sign of x, 0/0 and inf/inf are
   NaN, a finite value over an infinity is 0. *)
Definition fdiv (x y : fval) : fval :=
  match x, y with
  | NaN, _ | _, NaN => NaN
  | Fin a, Fin b => if Qeqb0 b then inf_of_sign (Qsign a) else Fin (a / b)
  | Fin _, _ => Fin 0
  | _, Fin b => if Qeqb0 b then x else inf_of_sign (fsign x * Qsign b)
  | _, _ => NaN
  end.

Definition fle (x y : fval) : bool :=
  match x, y with
  | NaN, _ | _, NaN => false
  | Fin a, Fin b => Qle_bool a b
  | NInf, _ | _, PInf => true
  | _, _ => false
  end.

Definition flt (x y : fval) : bool :=
  match x, y with
  | NaN, _ | _, NaN => false
  | _, _ => negb (fle y x)
  end.

Definition fge (x y : fval) : bool := fle y x.
Definition fgt (x y : fval) : bool := flt y x.

Definition is_nan (x : fval) : bool :=
  match x with NaN => true | _ => false end.

(** ** Configuration constants (lines 20-32) *)

Definition FETCH_LIMIT : nat := 50.
Definition VOLUME_MULTIPLIER : Q := 9 # 10.
Definition RSI_PERIOD : nat := 14.
Definition RSI_OVERSOLD : Q := 40.
Definition RSI_OVERBOUGHT : Q := 60.
Definition EMA_FAST : nat := 20.
Definition EMA_SLOW : nat := 50.

(** ** Candles: one row of the data frame *)

Record candle : Type := mkCandle {
  ts : Z;          (* open time of the candle, milliseconds *)
  open : Q;
  high : Q;
  low : Q;
  close : Q;
  volume : Q
}.

(** The candle invariant of the data model. *)
Definition candle_inv (c : candle) : Prop :=
  Qmax (open c) (close c) <= high c /\ low c <= Qmin (open c) (close c).

(** ** Candle pattern logic (lines 81-99) *)

Definition Qltb (a b : Q) : bool := negb (Qle_bool b a).

Definition body (c : candle) : Q := Qabs (close c - open c).
Definition lower_shadow (c : candle) : Q := Qmin (open c) (close c) - low c.
Definition upper_shadow (c : candle) : Q := high c - Qmax (open c) (close c).

Definition is_hammer_candle (c : candle) : bool :=
  let o := open c in let h := high c in let l := low c in let cl := close c in
  let body := Qabs (cl - o) in
  if Qeq_bool body 0 then false
  else
    let lower := Qmin o cl - l in
    let upper := h - Qmax o cl in
    Qltb (body * (18 # 10)) lower && Qltb upper (body * (6 # 10)).

Definition is_shooting_star_candle (c : candle) : bool :=
  let o := open c in let h := high c in let l := low c in let cl := close c in
  let body := Qabs (cl - o) in
  if Qeq_bool body 0 then false
  else
    let upper := h - Qmax o cl in
    let lower := Qmin o cl - l in
    Qltb (body * (18 # 10)) upper && Qltb lower (body * (6 # 10)).

(** ** Python sequence access *)

(* xs[i] for a Python list or a pandas .iloc: negative indices count from
   the end, an index out of range raises IndexError. *)
Definition py_index {A : Type} (xs : list A) (i : Z) : result A :=
  let n := Z.of_nat (length xs) in
  let j := if (i <? 0)%Z then (i + n)%Z else i in
  if ((j <? 0) || (n <=? j))%Z then Raise IndexError
  else match nth_error xs (Z.to_nat j) with
       | Some x => Ok x
       | None => Raise IndexError
       end.

(* xs[-k:] for k > 0: the last k elements, all of them when there are fewer. *)
Definition iloc_tail {A : Type} (k : nat) (xs : list A) : list A :=
  skipn (length xs - k) xs.

(** ** Trend confirmation on the previous candles (lines 103-115) *)

Definition trend_confirmation (candles : list candle) (direction : string)
    (required_count : Z) : result bool :=
  let closes := map close candles in
  if String.eqb direction "down" then
    let count_bear :=
      Z.of_nat (length (filter (fun c => Qltb (close c) (open c)) candles)) in
    last_close <- py_index closes (-1) ;;
    first_close <- py_index closes 0 ;;
    let falling := Qltb last_close first_close in
    Ok ((required_count <=? count_bear)%Z && falling)
  else
    let count_bull :=
      Z.of_nat (length (filter (fun c => Qltb (open c) (close c)) candles)) in
    last_close <- py_index closes (-1) ;;
    first_close <- py_index closes 0 ;;
    let rising := Qltb first_close last_close in
    Ok ((required_count <=? count_bull)%Z && rising).

(** ** Indicators (lines 65-77) *)

Definition Qsum (xs : list Q) : Q := fold_left Qplus xs 0.
Definition fsum (xs : list fval) : fval := fold_left fadd xs (Fin 0).
Definition Qnat (n : nat) : Q := inject_Z (Z.of_nat n).

(* Series.mean() of a series of finite values; NaN for the empty series. *)
Definition mean (xs : list Q) : fval :=
  fdiv (Fin (Qsum xs)) (Fin (Qnat (length xs))).

(* Series.diff(): the first position has no predecessor and is NaN. *)
Fixpoint diff_from (prev : Q) (xs : list Q) : list fval :=
  match xs with
  | [] => []
  | x :: rest => Fin (x - prev) :: diff_from x rest
  end.

Definition diff (series : list Q) : list fval :=
  match series with
  | [] => []
  | x :: rest => NaN :: diff_from x rest
  end.

(* Series.clip(lower=lo) and Series.clip(upper=hi); NaN stays NaN. *)
Definition clip_lower (lo : fval) (x : fval) : fval :=
  if flt x lo then lo else x.
Definition clip_upper (hi : fval) (x : fval) : fval :=
  if fgt x hi then hi else x.

(* The rows i-period+1 .. i of a series, cut at the start of the series. *)
Definition window {A : Type} (period i : nat) (xs : list A) : list A :=
  skipn (S i - period) (firstn (S i) xs).

(* Series.rolling(period, min_periods).mean(): NaN observations are left
   out of the window; with fewer than min_periods observations the result
   is NaN. *)
Definition rolling_mean (period min_periods : nat) (xs : list fval)
    : list fval :=
  map (fun i =>
         let obs := filter (fun x => negb (is_nan x)) (window period i xs) in
         if (min_periods <=? length obs)%nat
         then fdiv (fsum obs) (Fin (Qnat (length obs)))
         else NaN)
      (seq 0 (length xs)).

Fixpoint zip_with {A B C : Type} (f : A -> B -> C) (xs : list A)
    (ys : list B) : list C :=
  match xs, ys with
  | x :: xs', y :: ys' => f x y :: zip_with f xs' ys'
  | _, _ => []
  end.

Definition rsi_of_rs (rs : fval) : fval :=
  fsub (Fin 100) (fdiv (Fin 100) (fadd (Fin 1) rs)).

Definition rsi_ma_up (series : list Q) (period : nat) : list fval :=
  rolling_mean period period (map (clip_lower (Fin 0)) (diff series)).

Definition rsi_ma_down (series : list Q) (period : nat) : list fval :=
  rolling_mean period period
    (map (fun d => fmul (Fin (-1)) (clip_upper (Fin 0) d)) (diff series)).

Definition compute_rsi (series : list Q) (period : nat) : list fval :=
  let delta := diff series in
  let up := map (clip_lower (Fin 0)) delta in
  let down := map (fun d => fmul (Fin (-1)) (clip_upper (Fin 0) d)) delta in
  let ma_up := rolling_mean period period up in
  let ma_down := rolling_mean period period down in
  let rs := zip_with fdiv ma_up ma_down in
  let rsi := map rsi_of_rs rs in
  rsi.

(* Series.ewm(span=period, adjust=False).mean() on finite values:
   alpha = 2/(span+1), y0 = x0, y[i] = (1-alpha)*y[i-1] + alpha*x[i]. *)
Fixpoint ema_from (alpha : Q) (prev : Q) (xs : list Q) : list Q :=
  match xs with
  | [] => []
  | x :: rest =>
      let y := (1 - alpha) * prev + alpha * x in
      y :: ema_from alpha y rest
  end.

Definition compute_ema (series : list Q) (period : nat) : list Q :=
  let alpha := 2 / (Qnat period + 1) in
  match series with
  | [] => []
  | x :: rest => x :: ema_from alpha x rest
  end.

(** ** Full analysis for a pair (lines 119-172) *)

Record signal : Type := mkSignal {
  typ : string;
  direction : string;
  price : Q;
  pattern_time : Z;
  meta_rsi : fval;
  meta_avg_vol : fval;
  meta_last_vol : Q
}.

(* The data frame is the exchange's answer as it comes: all rows, in the
   order received.  A failure of the request or of the conversion is an
   exception. *)
Definition fetch_ohlcv_df (response : result (list candle))
    : result (list candle) :=
  data <- response ;;
  Ok data.

Definition trend_candles (df : list candle) : list candle :=
  firstn 5 (iloc_tail 6 df).

Definition pattern_candle (df : list candle) : result candle :=
  py_index (iloc_tail 6 df) (-1).

Definition avg_vol (df : list candle) : fval :=
  if (20 <=? length df)%nat
  then mean (iloc_tail 20 (map volume df))
  else mean (map volume df).

Definition vol_ok (df : list candle) (last_vol : Q) : bool :=
  fge (Fin last_vol) (fmul (avg_vol df) (Fin VOLUME_MULTIPLIER)).

Definition analyze_pair (response : result (list candle))
    : result (list signal) :=
  match fetch_ohlcv_df response with
  | Raise _ => Ok []
  | Ok df =>
    if (length df <? 6)%nat then Ok []
    else
      let trend_candles := trend_candles df in
      pattern_candle <- pattern_candle df ;;
      let last_vol := volume pattern_candle in
      let avg_vol := avg_vol df in
      let rsi := compute_rsi (map close df) RSI_PERIOD in
      let ema_fast_col := compute_ema (map close df) EMA_FAST in
      let ema_slow_col := compute_ema (map close df) EMA_SLOW in
      let pattern_time := ts pattern_candle in
      let vol_ok := vol_ok df last_vol in
      ema_fast <- py_index ema_fast_col (-2) ;;
      ema_slow <- py_index ema_slow_col (-2) ;;
      rsi_val <- py_index rsi (-2) ;;
      hammer_signals <-
        (if is_hammer_candle pattern_candle then
           trend_ok <- trend_confirmation trend_candles "down" 3 ;;
           let ema_ok := Qltb ema_fast ema_slow in
           let rsi_ok := fle rsi_val (Fin RSI_OVERSOLD) in
           if trend_ok && ema_ok && vol_ok && rsi_ok
           then Ok [mkSignal "HAMMER" "LONG" (close pattern_candle)
                      pattern_time rsi_val avg_vol last_vol]
           else Ok []
         else Ok []) ;;
      star_signals <-
        (if is_shooting_star_candle pattern_candle then
           trend_ok <- trend_confirmation trend_candles "up" 3 ;;
           let ema_ok := Qltb ema_slow ema_fast in
           let rsi_ok := fge rsi_val (Fin RSI_OVERBOUGHT) in
           if trend_ok && ema_ok && vol_ok && rsi_ok
           then Ok [mkSignal "SHOOTING_STAR" "SHORT" (close pattern_candle)
                      pattern_time rsi_val avg_vol last_vol]
           else Ok []
         else Ok []) ;;
      Ok (hammer_signals ++ star_signals)
  end.

(** ** Main loop (lines 176-218) *)

Definition seconds_to_next_15min (now : Z) : Z :=
  let rem := (now mod (15 * 60))%Z in
  if negb (rem =? 0)%Z then (15 * 60 - rem)%Z else 0%Z.

(* The sleep before the first cycle: none when already on a boundary. *)
Definition startup_sleep (now : Z) : option Z :=
  let wait := seconds_to_next_15min now in
  if negb (wait =? 0)%Z then Some (wait + 1)%Z else None.

(* The sleep at the end of a cycle that finishes at time now. *)
Definition cycle_sleep (now : Z) : Z :=
  let to_sleep := seconds_to_next_15min now in
  let to_sleep := if (to_sleep =? 0)%Z then (15 * 60)%Z else to_sleep in
  (to_sleep + 1)%Z.

(* One turn of the loop over PAIRS: the signals that are notified and
   logged for the pair.  An exception of the analysis is caught and
   printed, and the loop goes on with the next pair. *)
Definition scan_pair (response : result (list candle)) : list signal :=
  match analyze_pair response with
  | Ok signals => signals
  | Raise _ => []
  end.

Definition scan_cycle (responses : list (result (list candle)))
    : list (list signal) :=
  map scan_pair responses.

(** ** Closed candles *)

Definition INTERVAL_MS : Z := 15 * 60 * 1000.

(* A candle that opened at [ts c] is closed at time [now_ms] when its
   interval has fully elapsed. *)
Definition candle_closed (now_ms : Z) (c : candle) : bool :=
  (ts c + INTERVAL_MS <=? now_ms)%Z.

(* The series that [analyze_pair] analyses for an answer of the exchange. *)
Definition analyzed_series (response : result (list candle))
    : list candle :=
  match fetch_ohlcv_df response with
  | Ok df => df
  | Raise _ => []
  end.

(** ** The decisions in IEEE double arithmetic

    The classifiers, the volume filter and the composite rule of
    [analyze_pair] compare computed values with thresholds, and at a tie
    the rounding of a double decides.  Module [F64] embeds lines 65-172
    once more with Rocq's primitive binary64 floats, operation for
    operation.  What the source leaves to pandas (the mean of a series, the
    rolling mean and the exponentially weighted mean, whose summation
    order is not in the source) is a parameter, the record [pandas]. *)

Module F64.
Import PrimFloat.

Record pandas : Type := mkPandas {
  (* Series.mean() *)
  mean : list float -> float;
  (* Series.rolling(window, min_periods).mean() *)
  rolling_mean : nat -> nat -> list float -> list float;
  (* Series.ewm(span, adjust=False).mean() *)
  ewm_mean : nat -> list float -> list float
}.

(* The rolling and the weighted mean return a column as long as the
   series they are given. *)
Definition returns_columns (pd : pandas) : Prop :=
  (forall w m xs, length (rolling_mean pd w m xs) = length xs) /\
  (forall span xs, length (ewm_mean pd span xs) = length xs).

(* The doubles nearest to 1.8, 0.6 and 0.9. *)
Definition SHADOW_LONG : float := 0x1.ccccccccccccdp+0.
Definition SHADOW_SHORT : float := 0x1.3333333333333p-1.
Definition VOLUME_MULTIPLIER : float := 0x1.ccccccccccccdp-1.
Definition RSI_PERIOD : nat := 14.
Definition RSI_OVERSOLD : float := 40.
Definition RSI_OVERBOUGHT : float := 60.
Definition EMA_FAST : nat := 20.
Definition EMA_SLOW : nat := 50.

Record candle : Type := mkCandle {
  ts : Z;
  open : float;
  high : float;
  low : float;
  close : float;
  volume : float
}.

(* Python's min(a, b) and max(a, b): the second argument is taken only
   when it compares strictly below (above) the first. *)
Definition py_min (a b : float) : float := if (b <? a)%float then b else a.
Definition py_max (a b : float) : float := if (a <? b)%float then b else a.

Definition body (c : candle) : float := abs (close c - open c).
Definition lower_shadow (c : candle) : float :=
  (py_min (open c) (close c) - low c)%float.
Definition upper_shadow (c : candle) : float :=
  (high c - py_max (open c) (close c))%float.

Definition is_hammer_candle (c : candle) : bool :=
  let o := open c in let h := high c in let l := low c in let cl := close c in
  let body := abs (cl - o) in
  if (body =? 0)%float then false
  else
    let lower := (py_min o cl - l)%float in
    let upper := (h - py_max o cl)%float in
    (body * SHADOW_LONG <? lower)%float && (upper <? body * SHADOW_SHORT)%float.

Definition is_shooting_star_candle (c : candle) : bool :=
  let o := open c in let h := high c in let l := low c in let cl := close c in
  let body := abs (cl - o) in
  if (body =? 0)%float then false
  else
    let upper := (h - py_max o cl)%float in
    let lower := (py_min o cl - l)%float in
    (body * SHADOW_LONG <? upper)%float && (lower <? body * SHADOW_SHORT)%float.

Definition trend_confirmation (candles : list candle) (direction : string)
    (required_count : Z) : result bool :=
  let closes := map close candles in
  if String.eqb direction "down" then
    let count_bear :=
      Z.of_nat (length (filter (fun c => (close c <? open c)%float) candles)) in
    last_close <- py_index closes (-1) ;;
    first_close <- py_index closes 0 ;;
    let falling := (last_close <? first_close)%float in
    Ok ((required_count <=? count_bear)%Z && falling)
  else
    let count_bull :=
      Z.of_nat (length (filter (fun c => (open c <? close c)%float) candles)) in
    last_close <- py_index closes (-1) ;;
    first_close <- py_index closes 0 ;;
    let rising := (first_close <? last_close)%float in
    Ok ((required_count <=? count_bull)%Z && rising).

Fixpoint diff_from (prev : float) (xs : list float) : list float :=
  match xs with
  | [] => []
  | x :: rest => (x - prev)%float :: diff_from x rest
  end.

Definition diff (series : list float) : list float :=
  match series with
  | [] => []
  | x :: rest => nan :: diff_from x rest
  end.

Definition clip_lower (lo x : float) : float :=
  if (x <? lo)%float then lo else x.
Definition clip_upper (hi x : float) : float :=
  if (hi <? x)%float then hi else x.

Definition compute_rsi (pd : pandas) (series : list float) (period : nat)
    : list float :=
  let delta := diff series in
  let up := map (clip_lower 0) delta in
  let down := map (fun d => (-1 * clip_upper 0 d)%float) delta in
  let ma_up := rolling_mean pd period period up in
  let ma_down := rolling_mean pd period period down in
  let rs := zip_with div ma_up ma_down in
  let rsi := map (fun r => (100 - 100 / (1 + r))%float) rs in
  rsi.

Definition compute_ema (pd : pandas) (series : list float) (period : nat)
    : list float :=
  ewm_mean pd period series.

Record signal : Type := mkSignal {
  typ : string;
  direction : string;
  price : float;
  pattern_time : Z;
  meta_rsi : float;
  meta_avg_vol : float;
  meta_last_vol : float
}.

Definition fetch_ohlcv_df (response : result (list candle))
    : result (list candle) :=
  data <- response ;;
  Ok data.

Definition trend_candles (df : list candle) : list candle :=
  firstn 5 (iloc_tail 6 df).

Definition pattern_candle (df : list candle) : result candle :=
  py_index (iloc_tail 6 df) (-1).

Definition avg_vol (pd : pandas) (df : list candle) : float :=
  if (20 <=? length df)%nat
  then mean pd (iloc_tail 20 (map volume df))
  else mean pd (map volume df).

Definition vol_ok (pd : pandas) (df : list candle) (last_vol : float)
    : bool :=
  (avg_vol pd df * VOLUME_MULTIPLIER <=? last_vol)%float.

Definition analyze_pair (pd : pandas) (response : result (list candle))
    : result (list signal) :=
  match fetch_ohlcv_df response with
  | Raise _ => Ok []
  | Ok df =>
    if (length df <? 6)%nat then Ok []
    else
      let trend_candles := trend_candles df in
      pattern_candle <- pattern_candle df ;;
      let last_vol := volume pattern_candle in
      let avg_vol := avg_vol pd df in
      let rsi := compute_rsi pd (map close df) RSI_PERIOD in
      let ema_fast_col := compute_ema pd (map close df) EMA_FAST in
      let ema_slow_col := compute_ema pd (map close df) EMA_SLOW in
      let pattern_time := ts pattern_candle in
      let vol_ok := vol_ok pd df last_vol in
      ema_fast <- py_index ema_fast_col (-2) ;;
      ema_slow <- py_index ema_slow_col (-2) ;;
      rsi_val <- py_index rsi (-2) ;;
      hammer_signals <-
        (if is_hammer_candle pattern_candle then
           trend_ok <- trend_confirmation trend_candles "down" 3 ;;
           let ema_ok := (ema_fast <? ema_slow)%float in
           let rsi_ok := (rsi_val <=? RSI_OVERSOLD)%float in
           if trend_ok && ema_ok && vol_ok && rsi_ok
           then Ok [mkSignal "HAMMER" "LONG" (close pattern_candle)
                      pattern_time rsi_val avg_vol last_vol]
           else Ok []
         else Ok []) ;;
      star_signals <-
        (if is_shooting_star_candle pattern_candle then
           trend_ok <- trend_confirmation trend_candles "up" 3 ;;
           let ema_ok := (ema_slow <? ema_fast)%float in
           let rsi_ok := (RSI_OVERBOUGHT <=? rsi_val)%float in
           if trend_ok && ema_ok && vol_ok && rsi_ok
           then Ok [mkSignal "SHOOTING_STAR" "SHORT" (close pattern_candle)
                      pattern_time rsi_val avg_vol last_vol]
           else Ok []
         else Ok []) ;;
      Ok (hammer_signals ++ star_signals)
  end.

(** A plain implementation of the pandas primitives, for running the
    model: sums from left to right. *)

Definition float_of_nat (n : nat) : float :=
  Nat.iter n (fun x => (x + 1)%float) 0%float.

Definition plain_mean (xs : list float) : float :=
  (fold_left add xs 0 / float_of_nat (length xs))%float.

Definition plain_rolling_mean (w m : nat) (xs : list float) : list float :=
  map (fun i =>
         let obs := filter (fun x => negb (is_nan x)) (window w i xs) in
         if (m <=? length obs)%nat then plain_mean obs else nan)
      (seq 0 (length xs)).

Fixpoint plain_ewm_from (alpha prev : float) (xs : list float)
    : list float :=
  match xs with
  | [] => []
  | x :: rest =>
      let y := ((1 - alpha) * prev + alpha * x)%float in
      y :: plain_ewm_from alpha y rest
  end.

Definition plain_ewm_mean (span : nat) (xs : list float) : list float :=
  let alpha := (2 / (float_of_nat span + 1))%float in
  match xs with
  | [] => []
  | x :: rest => x :: plain_ewm_from alpha x rest
  end.

Definition plain_pandas : pandas :=
  mkPandas plain_mean plain_rolling_mean plain_ewm_mean.

(* The exact value of a finite double. *)
Definition exact (x : float) : option Q :=
  match FloatOps.Prim2SF x with
  | SpecFloat.S754_zero _ => Some 0%Q
  | SpecFloat.S754_finite s m e =>
      let v :=
        if (0 <=? e)%Z then inject_Z (Z.pos m * 2 ^ e)
        else (Z.pos m # 1) / inject_Z (2 ^ (- e)) in
      Some (if s then - v else v)%Q
  | _ => None
  end.

End F64.

(* The candle of exact rationals with the values of a candle of finite
   doubles. *)
Definition exact_candle (c : F64.candle) : option candle :=
  match F64.exact (F64.open c), F64.exact (F64.high c),
        F64.exact (F64.low c), F64.exact (F64.close c),
        F64.exact (F64.volume c) with
  | Some o, Some h, Some l, Some cl, Some v =>
      Some (mkCandle (F64.ts c) o h l cl v)
  | _, _, _, _, _ => None
  end.

(* The rows of a series of doubles that are finite, as exact candles. *)
Definition exact_series (df : list F64.candle) : list candle :=
  flat_map (fun c => match exact_candle c with
                     | Some x => [x]
                     | None => []
                     end) df.

(** Sample data in doubles. *)

Module F64Data.
Import PrimFloat.

(* A falling market of sixteen bearish candles and a hammer. *)
Definition bear_candle (i : nat) : F64.candle :=
  let o := (200 - 5 * F64.float_of_nat i)%float in
  let cl := (195 - 5 * F64.float_of_nat i)%float in
  F64.mkCandle (Z.of_nat i * 900000) o o cl cl 10%float.

Definition hammer_candle : F64.candle :=
  F64.mkCandle (16 * 900000) 100%float 100.5%float 90%float 99%float
               10%float.

Definition scenario_df : list F64.candle :=
  map bear_candle (seq 0 16) ++ [hammer_candle].

(* A candle on the 1.8 tie: open 10.9, high 19.3, low 10.6, close 13.9,
   each the nearest double. *)
Definition tie_candle : F64.candle :=
  F64.mkCandle 0 (109 / 10)%float (193 / 10)%float (106 / 10)%float
               (139 / 10)%float 10%float.

(* Eighteen hammers with volumes 67 (sixteen times), 68 and 60: the mean
   is 1200/18 and 0.9 times the mean is 60 in exact arithmetic. *)
Definition volume_row (v : float) : F64.candle :=
  F64.mkCandle 0 100%float 100.5%float 90%float 99%float v.

Definition tie_volumes : list F64.candle :=
  map volume_row (repeat 67%float 16 ++ [68%float; 60%float]).

Definition doji : F64.candle :=
  F64.mkCandle 0 100%float 101%float 99%float 100%float 10%float.

End F64Data.

(** ** Vocabulary of the statements *)

Definition bearish (c : candle) : bool := Qltb (close c) (open c).
Definition bullish (c : candle) : bool := Qltb (open c) (close c).

Definition count_bearish (w : list candle) : Z :=
  Z.of_nat (length (filter bearish w)).
Definition count_bullish (w : list candle) : Z :=
  Z.of_nat (length (filter bullish w)).

(* The first and the last row of a window, when it has any. *)
Definition first_row (w : list candle) : option candle := nth_error w 0.
Definition last_row (w : list candle) : option candle :=
  nth_error w (length w - 1).

(* A value that is a number between 0 and 100. *)
Definition in_0_100 (x : fval) : Prop :=
  exists r, x = Fin r /\ 0 <= r /\ r <= 100.

(* A value that is a non-negative number. *)
Definition fin_nonneg (x : fval) : Prop := exists q, x = Fin q /\ 0 <= q.

Definition nan_or_nonneg (x : fval) : Prop := x = NaN \/ fin_nonneg x.

(* The two signals [analyze_pair] can build for a pattern candle. *)
Definition hammer_signal (pc : candle) (rsi_val avg : fval) : signal :=
  mkSignal "HAMMER" "LONG" (close pc) (ts pc) rsi_val avg (volume pc).

Definition star_signal (pc : candle) (rsi_val avg : fval) : signal :=
  mkSignal "SHOOTING_STAR" "SHORT" (close pc) (ts pc) rsi_val avg (volume pc).

(** ** Sample data *)

(* A falling market: sixteen bearish candles, each closing 5 below the
   previous one, one every 15 minutes. *)
Definition bear_candle (i : nat) : candle :=
  let o := inject_Z (200 - 5 * Z.of_nat i) in
  let cl := inject_Z (195 - 5 * Z.of_nat i) in
  mkCandle (Z.of_nat i * INTERVAL_MS) o o cl cl 10.

(* A hammer: body 1, lower shadow 9, upper shadow 1/2. *)
Definition hammer_candle : candle :=
  mkCandle (16 * INTERVAL_MS) 100 (201 # 2) 90 99 10.

Definition scenario_df : list candle :=
  map bear_candle (seq 0 16) ++ [hammer_candle].

(* One second after the boundary at which [hammer_candle] opened. *)
Definition scenario_now_ms : Z := 16 * INTERVAL_MS + 1000.

(* A flat market: sixteen equal prices. *)
Definition flat_series : list Q := repeat 100 16.

(* A doji: open and close coincide. *)
Definition doji : candle := mkCandle 0 100 101 99 100 10.

(* A rising market: sixteen bullish candles, each closing 5 above the
   previous one, followed by a shooting star: body 1, upper shadow 9,
   lower shadow 1/2. *)
Definition bull_candle (i : nat) : candle :=
  let o := inject_Z (100 + 5 * Z.of_nat i) in
  let cl := inject_Z (105 + 5 * Z.of_nat i) in
  mkCandle (Z.of_nat i * INTERVAL_MS) o cl o cl 10.

Definition star_candle : candle :=
  mkCandle (16 * INTERVAL_MS) 185 194 (367 # 2) 184 10.

Definition rising_market : list candle := map bull_candle (seq 0 16).

(* Values that are a zero, a positive or a negative number. *)
Definition fin_zero (v : fval) : Prop := exists q, v = Fin q /\ q == 0.
Definition fin_pos (v : fval) : Prop := exists q, v = Fin q /\ 0 < q.
Definition fin_neg (v : fval) : Prop := exists q, v = Fin q /\ q < 0.

(** ** Market shapes and candle transformations *)

(* A price series in which every price is strictly below (above) the one
   before it. *)
Fixpoint falling_from (prev : Q) (xs : list Q) : Prop :=
  match xs with
  | [] => True
  | x :: rest => x < prev /\ falling_from x rest
  end.

Fixpoint rising_from (prev : Q) (xs : list Q) : Prop :=
  match xs with
  | [] => True
  | x :: rest => prev < x /\ rising_from x rest
  end.

Definition strictly_falling (series : list Q) : Prop :=
  match series with
  | [] => True
  | x :: rest => falling_from x rest
  end.

Definition strictly_rising (series : list Q) : Prop :=
  match series with
  | [] => True
  | x :: rest => rising_from x rest
  end.

(* The candle seen upside down: prices negated, high and low exchanged. *)
Definition mirror (c : candle) : candle :=
  mkCandle (ts c) (- open c) (- low c) (- high c) (- close c) (volume c).

(** * Properties *)

(** ** Comparisons *)

Lemma Qltb_lt (a b : Q) : Qltb a b = true <-> a < b.
Proof.
  unfold Qltb. rewrite negb_true_iff. split; intro H.
  - apply Qnot_le_lt. intro Hle. apply Qle_bool_iff in Hle. congruence.
  - destruct (Qle_bool b a) eqn:E; trivial.
    apply Qle_bool_iff in E. apply Qle_not_lt in E. contradiction.
Qed.

Lemma Qltb_false_le (a b : Q) : Qltb a b = false <-> b <= a.
Proof.
  unfold Qltb. rewrite negb_false_iff. apply Qle_bool_iff.
Qed.

Lemma Qeq_bool_false (a b : Q) : Qeq_bool a b = false <-> ~ a == b.
Proof.
  split; intro H.
  - intro E. apply Qeq_bool_iff in E. congruence.
  - destruct (Qeq_bool a b) eqn:E; trivial.
    apply Qeq_bool_iff in E. contradiction.
Qed.

(** ** The pattern classifiers *)

Lemma is_hammer_candle_iff (c : candle) :
  is_hammer_candle c = true <->
  ~ body c == 0 /\
  (18 # 10) * body c < lower_shadow c /\
  upper_shadow c < (6 # 10) * body c.
Proof.
  unfold is_hammer_candle, body, lower_shadow, upper_shadow.
  destruct (Qeq_bool (Qabs (close c - open c)) 0) eqn:E.
  - apply Qeq_bool_iff in E. split; [discriminate | tauto].
  - apply Qeq_bool_false in E.
    rewrite andb_true_iff, !Qltb_lt. split.
    + intros [H1 H2]. repeat split; [exact E | lra | lra].
    + intros (_ & H1 & H2). split; lra.
Qed.

Lemma is_shooting_star_candle_iff (c : candle) :
  is_shooting_star_candle c = true <->
  ~ body c == 0 /\
  (18 # 10) * body c < upper_shadow c /\
  lower_shadow c < (6 # 10) * body c.
Proof.
  unfold is_shooting_star_candle, body, lower_shadow, upper_shadow.
  destruct (Qeq_bool (Qabs (close c - open c)) 0) eqn:E.
  - apply Qeq_bool_iff in E. split; [discriminate | tauto].
  - apply Qeq_bool_false in E.
    rewrite andb_true_iff, !Qltb_lt. split.
    + intros [H1 H2]. repeat split; [exact E | lra | lra].
    + intros (_ & H1 & H2). split; lra.
Qed.

Lemma body_nonneg (c : candle) : 0 <= body c.
Proof. apply Qabs_nonneg. Qed.

Lemma classifiers_exclusive (c : candle) :
  is_hammer_candle c && is_shooting_star_candle c = false.
Proof.
  destruct (is_hammer_candle c) eqn:Hh; trivial.
  destruct (is_shooting_star_candle c) eqn:Hs; trivial.
  apply is_hammer_candle_iff in Hh. apply is_shooting_star_candle_iff in Hs.
  destruct Hh as (Hb & H1 & H2). destruct Hs as (_ & H3 & H4).
  pose proof (body_nonneg c) as Hn.
  exfalso. lra.
Qed.

(** ** Sequence access *)

Lemma py_index_neg {A : Type} (xs : list A) (k : nat) (x : A) :
  (1 <= k <= length xs)%nat ->
  nth_error xs (length xs - k) = Some x ->
  py_index xs (- Z.of_nat k) = Ok x.
Proof.
  intros Hk Hx. unfold py_index.
  assert (E1 : (- Z.of_nat k <? 0)%Z = true) by (apply Z.ltb_lt; lia).
  rewrite E1.
  assert (E2 : (- Z.of_nat k + Z.of_nat (length xs) <? 0)%Z = false)
    by (apply Z.ltb_ge; lia).
  assert (E3 : (Z.of_nat (length xs) <=?
                - Z.of_nat k + Z.of_nat (length xs))%Z = false)
    by (apply Z.leb_gt; lia).
  rewrite E2, E3. simpl.
  replace (Z.to_nat (- Z.of_nat k + Z.of_nat (length xs)))
    with (length xs - k)%nat by lia.
  rewrite Hx. reflexivity.
Qed.

Lemma py_index_last {A : Type} (xs : list A) (x : A) :
  py_index (xs ++ [x]) (-1) = Ok x.
Proof.
  apply (py_index_neg (xs ++ [x]) 1 x).
  - rewrite length_app. simpl. lia.
  - rewrite length_app. simpl.
    replace (length xs + 1 - 1)%nat with (length xs) by lia.
    rewrite nth_error_app2 by lia. rewrite Nat.sub_diag. reflexivity.
Qed.

Lemma py_index_first {A : Type} (x : A) (xs : list A) :
  py_index (x :: xs) 0 = Ok x.
Proof.
  unfold py_index. cbv zeta.
  change (0 <? 0)%Z with false. cbv iota.
  assert (E : (Z.of_nat (length (x :: xs)) <=? 0)%Z = false)
    by (apply Z.leb_gt; simpl length; lia).
  rewrite E. reflexivity.
Qed.

Lemma py_index_nil {A : Type} (i : Z) :
  py_index (@nil A) i = Raise IndexError.
Proof.
  unfold py_index. simpl length. simpl Z.of_nat.
  destruct (i <? 0)%Z eqn:E.
  - rewrite Z.add_0_r, E. reflexivity.
  - assert (E2 : (0 <=? i)%Z = true) by (apply Z.leb_le; apply Z.ltb_ge in E; lia).
    rewrite E, E2. reflexivity.
Qed.

Lemma nth_error_defined {A : Type} (xs : list A) (i : nat) :
  (i < length xs)%nat -> exists x, nth_error xs i = Some x.
Proof.
  intro H. destruct (nth_error xs i) eqn:E; eauto.
  apply nth_error_None in E. lia.
Qed.

Lemma iloc_tail_app {A : Type} (k : nat) (pre w : list A) :
  length w = k -> iloc_tail k (pre ++ w) = w.
Proof.
  intro H. unfold iloc_tail. rewrite length_app, H.
  replace (length pre + k - k)%nat with (length pre) by lia.
  rewrite skipn_app, Nat.sub_diag, skipn_all. reflexivity.
Qed.

Lemma iloc_tail_short {A : Type} (k : nat) (xs : list A) :
  (length xs <= k)%nat -> iloc_tail k xs = xs.
Proof.
  intro H. unfold iloc_tail.
  replace (length xs - k)%nat with 0%nat by lia. reflexivity.
Qed.

(* A series of at least six rows splits into a prefix, the five rows of
   the trend window and the last row. *)
Lemma split_last6 {A : Type} (xs : list A) :
  (6 <= length xs)%nat ->
  exists pre w x, xs = pre ++ w ++ [x] /\ length w = 5%nat.
Proof.
  intro H.
  destruct (exists_last (l := xs)) as (ys & x & E).
  { intro E. subst. simpl in H. lia. }
  subst xs. rewrite length_app in H. simpl in H.
  exists (firstn (length ys - 5) ys), (skipn (length ys - 5) ys), x.
  split.
  - rewrite app_assoc, firstn_skipn. reflexivity.
  - rewrite length_skipn. lia.
Qed.

Lemma trend_candles_app (pre w : list candle) (pc : candle) :
  length w = 5%nat -> trend_candles (pre ++ w ++ [pc]) = w.
Proof.
  intro H. unfold trend_candles.
  rewrite iloc_tail_app by (rewrite length_app, H; reflexivity).
  rewrite firstn_app, H, Nat.sub_diag.
  rewrite firstn_all2 by lia. apply app_nil_r.
Qed.

Lemma pattern_candle_app (pre w : list candle) (pc : candle) :
  length w = 5%nat -> pattern_candle (pre ++ w ++ [pc]) = Ok pc.
Proof.
  intro H. unfold pattern_candle.
  rewrite iloc_tail_app by (rewrite length_app, H; reflexivity).
  apply py_index_last.
Qed.

(** ** Trend confirmation *)

Lemma last_cons_default {A : Type} (l : list A) (x d : A) :
  last (x :: l) d = last l x.
Proof.
  revert x d. induction l as [|a l IH]; intros x d.
  - reflexivity.
  - change (last (a :: l) d = last (a :: l) x). rewrite !IH. reflexivity.
Qed.

Lemma last_row_cons (c0 : candle) (rest : list candle) :
  last_row (c0 :: rest) = Some (last rest c0).
Proof.
  unfold last_row.
  replace (length (c0 :: rest) - 1)%nat with (length rest) by (simpl; lia).
  revert c0. induction rest as [|c1 rest IH]; intro c0.
  - reflexivity.
  - change (nth_error (c1 :: rest) (length rest) = Some (last (c1 :: rest) c0)).
    rewrite IH, last_cons_default. reflexivity.
Qed.

Lemma py_index_closes_last (c0 : candle) (rest : list candle) :
  py_index (map close (c0 :: rest)) (-1) = Ok (close (last rest c0)).
Proof.
  apply (py_index_neg _ 1).
  - simpl. lia.
  - rewrite length_map, nth_error_map.
    pose proof (last_row_cons c0 rest) as H. unfold last_row in H.
    rewrite H. reflexivity.
Qed.

Lemma trend_confirmation_down (c0 : candle) (rest : list candle) (k : Z) :
  trend_confirmation (c0 :: rest) "down" k =
  Ok ((k <=? count_bearish (c0 :: rest))%Z
      && Qltb (close (last rest c0)) (close c0)).
Proof.
  unfold trend_confirmation.
  change (String.eqb "down" "down") with true. cbv iota zeta.
  rewrite py_index_closes_last.
  change (map close (c0 :: rest)) with (close c0 :: map close rest).
  unfold bind at 1. rewrite py_index_first. reflexivity.
Qed.

Lemma trend_confirmation_up (c0 : candle) (rest : list candle) (k : Z) :
  trend_confirmation (c0 :: rest) "up" k =
  Ok ((k <=? count_bullish (c0 :: rest))%Z
      && Qltb (close c0) (close (last rest c0))).
Proof.
  unfold trend_confirmation.
  change (String.eqb "up" "down") with false. cbv iota zeta.
  rewrite py_index_closes_last.
  change (map close (c0 :: rest)) with (close c0 :: map close rest).
  unfold bind at 1. rewrite py_index_first. reflexivity.
Qed.

Lemma trend_confirmation_nil (d : string) (k : Z) :
  trend_confirmation [] d k = Raise IndexError.
Proof.
  unfold trend_confirmation. simpl map.
  destruct (String.eqb d "down"); cbv zeta; rewrite py_index_nil; reflexivity.
Qed.

Lemma trend_confirmation_down_iff (w : list candle) (k : Z) :
  trend_confirmation w "down" k = Ok true <->
  (k <= count_bearish w)%Z /\
  exists c_first c_last,
    first_row w = Some c_first /\ last_row w = Some c_last /\
    close c_last < close c_first.
Proof.
  destruct w as [|c0 rest].
  - rewrite trend_confirmation_nil. split; [discriminate|].
    intros (_ & c1 & c2 & H & _). discriminate.
  - rewrite trend_confirmation_down, last_row_cons. split.
    + intro H. injection H as H. apply andb_true_iff in H as [H1 H2].
      apply Z.leb_le in H1. apply Qltb_lt in H2.
      split; [exact H1|]. exists c0, (last rest c0). auto.
    + intros (H1 & c1 & c2 & E1 & E2 & H2).
      injection E1 as <-. injection E2 as <-.
      apply Z.leb_le in H1. apply Qltb_lt in H2. rewrite H1, H2. reflexivity.
Qed.

Lemma trend_confirmation_up_iff (w : list candle) (k : Z) :
  trend_confirmation w "up" k = Ok true <->
  (k <= count_bullish w)%Z /\
  exists c_first c_last,
    first_row w = Some c_first /\ last_row w = Some c_last /\
    close c_first < close c_last.
Proof.
  destruct w as [|c0 rest].
  - rewrite trend_confirmation_nil. split; [discriminate|].
    intros (_ & c1 & c2 & H & _). discriminate.
  - rewrite trend_confirmation_up, last_row_cons. split.
    + intro H. injection H as H. apply andb_true_iff in H as [H1 H2].
      apply Z.leb_le in H1. apply Qltb_lt in H2.
      split; [exact H1|]. exists c0, (last rest c0). auto.
    + intros (H1 & c1 & c2 & E1 & E2 & H2).
      injection E1 as <-. injection E2 as <-.
      apply Z.leb_le in H1. apply Qltb_lt in H2. rewrite H1, H2. reflexivity.
Qed.

Lemma trend_confirmation_returns (w : list candle) (d : string) (k : Z) :
  w <> [] -> exists b, trend_confirmation w d k = Ok b.
Proof.
  destruct w as [|c0 rest]; [congruence|]. intros _.
  unfold trend_confirmation.
  destruct (String.eqb d "down"); cbv zeta;
    rewrite py_index_closes_last;
    change (map close (c0 :: rest)) with (close c0 :: map close rest);
    unfold bind at 1; rewrite py_index_first; eexists; reflexivity.
Qed.

(** ** Shape of the indicator columns *)

Lemma length_diff_from (prev : Q) (xs : list Q) :
  length (diff_from prev xs) = length xs.
Proof.
  revert prev. induction xs as [|x xs IH]; intro prev; simpl; auto.
Qed.

Lemma length_diff (series : list Q) : length (diff series) = length series.
Proof.
  destruct series; simpl; [reflexivity|]. now rewrite length_diff_from.
Qed.

Lemma length_rolling_mean (p m : nat) (xs : list fval) :
  length (rolling_mean p m xs) = length xs.
Proof. unfold rolling_mean. now rewrite length_map, length_seq. Qed.

Lemma length_zip_with {A B C : Type} (f : A -> B -> C) (xs : list A)
    (ys : list B) :
  length xs = length ys -> length (zip_with f xs ys) = length xs.
Proof.
  revert ys. induction xs as [|x xs IH]; intros [|y ys] H; simpl in *;
    try congruence. f_equal. apply IH. congruence.
Qed.

Lemma length_rsi_ma_up (series : list Q) (p : nat) :
  length (rsi_ma_up series p) = length series.
Proof.
  unfold rsi_ma_up. now rewrite length_rolling_mean, length_map, length_diff.
Qed.

Lemma length_rsi_ma_down (series : list Q) (p : nat) :
  length (rsi_ma_down series p) = length series.
Proof.
  unfold rsi_ma_down.
  now rewrite length_rolling_mean, length_map, length_diff.
Qed.

Lemma compute_rsi_unfold (series : list Q) (p : nat) :
  compute_rsi series p =
  map rsi_of_rs (zip_with fdiv (rsi_ma_up series p) (rsi_ma_down series p)).
Proof. reflexivity. Qed.

Lemma length_compute_rsi (series : list Q) (p : nat) :
  length (compute_rsi series p) = length series.
Proof.
  rewrite compute_rsi_unfold, length_map, length_zip_with.
  - apply length_rsi_ma_up.
  - now rewrite length_rsi_ma_up, length_rsi_ma_down.
Qed.

Lemma length_ema_from (alpha prev : Q) (xs : list Q) :
  length (ema_from alpha prev xs) = length xs.
Proof.
  revert prev. induction xs as [|x xs IH]; intro prev; simpl; auto.
Qed.

Lemma length_compute_ema (series : list Q) (p : nat) :
  length (compute_ema series p) = length series.
Proof.
  destruct series; simpl; [reflexivity|]. now rewrite length_ema_from.
Qed.

Lemma nth_error_zip_with {A B C : Type} (f : A -> B -> C) (xs : list A)
    (ys : list B) (i : nat) (a : A) (b : B) :
  nth_error xs i = Some a -> nth_error ys i = Some b ->
  nth_error (zip_with f xs ys) i = Some (f a b).
Proof.
  revert ys i. induction xs as [|x xs IH]; intros [|y ys] [|i] Ha Hb;
    simpl in *; try discriminate.
  - congruence.
  - now apply IH.
Qed.

Lemma nth_error_rolling_mean (p m : nat) (xs : list fval) (i : nat) :
  (i < length xs)%nat ->
  nth_error (rolling_mean p m xs) i =
  Some (let obs := filter (fun x => negb (is_nan x)) (window p i xs) in
        if (m <=? length obs)%nat
        then fdiv (fsum obs) (Fin (Qnat (length obs)))
        else NaN).
Proof.
  intro H. unfold rolling_mean.
  rewrite nth_error_map, nth_error_seq.
  apply Nat.ltb_lt in H. rewrite H. reflexivity.
Qed.

(* The RSI at row i is computed from the two rolling averages at row i. *)
Lemma nth_error_compute_rsi (series : list Q) (p i : nat) (g l : fval) :
  nth_error (rsi_ma_up series p) i = Some g ->
  nth_error (rsi_ma_down series p) i = Some l ->
  nth_error (compute_rsi series p) i = Some (rsi_of_rs (fdiv g l)).
Proof.
  intros Hg Hl. rewrite compute_rsi_unfold, nth_error_map.
  rewrite (nth_error_zip_with fdiv _ _ i g l Hg Hl). reflexivity.
Qed.

(** ** Arithmetic of the float values *)

Lemma Qnat_pos (n : nat) : 0 < Qnat (S n).
Proof. unfold Qnat, Qlt. simpl. lia. Qed.

Lemma Qeqb0_false (q : Q) : 0 < q -> Qeqb0 q = false.
Proof.
  intro H. unfold Qeqb0. apply Qeq_bool_false. intro E. rewrite E in H.
  apply (Qlt_irrefl 0), H.
Qed.

Lemma Qeqb0_true (q : Q) : q == 0 -> Qeqb0 q = true.
Proof. intro H. unfold Qeqb0. now apply Qeq_bool_iff. Qed.

Lemma Qsign_zero (q : Q) : q == 0 -> Qsign q = 0%Z.
Proof.
  unfold Qsign, Qeq. simpl. intro H. rewrite Z.mul_1_r in H. now rewrite H.
Qed.

Lemma Qsign_pos (q : Q) : 0 < q -> Qsign q = 1%Z.
Proof.
  unfold Qsign, Qlt. simpl. intro H. rewrite Z.mul_1_r in H.
  apply Z.sgn_pos. exact H.
Qed.

Lemma Qdiv_nonneg (a b : Q) : 0 <= a -> 0 < b -> 0 <= a / b.
Proof.
  intros Ha Hb. apply Qle_shift_div_l; [exact Hb|]. lra.
Qed.

Lemma fsum_from_nonneg (xs : list fval) (a : Q) :
  Forall fin_nonneg xs -> 0 <= a -> fin_nonneg (fold_left fadd xs (Fin a)).
Proof.
  intro H. revert a. induction H as [|x xs (q & -> & Hq) _ IH]; intros a Ha.
  - exists a. auto.
  - simpl. apply IH. lra.
Qed.

Lemma mean_obs_nonneg (obs : list fval) :
  Forall fin_nonneg obs -> obs <> [] ->
  fin_nonneg (fdiv (fsum obs) (Fin (Qnat (length obs)))).
Proof.
  intros H Hne. destruct obs as [|x obs]; [congruence|].
  destruct (fsum_from_nonneg (x :: obs) 0 H) as (s & Es & Hs); [lra|].
  unfold fsum. rewrite Es. simpl length. unfold fdiv.
  rewrite (Qeqb0_false _ (Qnat_pos (length obs))).
  exists (s / Qnat (S (length obs))). split; [reflexivity|].
  apply Qdiv_nonneg; [exact Hs | apply Qnat_pos].
Qed.

Lemma clip_lower_nonneg (d : Q) : fin_nonneg (clip_lower (Fin 0) (Fin d)).
Proof.
  unfold clip_lower, flt, fle.
  destruct (Qle_bool 0 d) eqn:E; simpl.
  - exists d. split; [reflexivity | now apply Qle_bool_iff].
  - exists 0. split; [reflexivity | lra].
Qed.

Lemma neg_clip_upper_nonneg (d : Q) :
  fin_nonneg (fmul (Fin (-1)) (clip_upper (Fin 0) (Fin d))).
Proof.
  unfold clip_upper, fgt, flt, fle.
  destruct (Qle_bool d 0) eqn:E; simpl.
  - apply Qle_bool_iff in E. exists (-1 * d). split; [reflexivity | lra].
  - exists (-1 * 0). split; [reflexivity | lra].
Qed.

(** ** The rolling averages of the RSI *)

Lemma Forall_firstn {A : Type} (P : A -> Prop) (n : nat) (l : list A) :
  Forall P l -> Forall P (firstn n l).
Proof.
  intro H. rewrite <- (firstn_skipn n l) in H.
  apply Forall_app in H. tauto.
Qed.

Lemma Forall_skipn {A : Type} (P : A -> Prop) (n : nat) (l : list A) :
  Forall P l -> Forall P (skipn n l).
Proof.
  intro H. rewrite <- (firstn_skipn n l) in H.
  apply Forall_app in H. tauto.
Qed.

Lemma filter_not_nan_id (l : list fval) :
  Forall fin_nonneg l -> filter (fun x => negb (is_nan x)) l = l.
Proof.
  induction 1 as [|x l (q & -> & _) _ IH]; simpl; [reflexivity|].
  now rewrite IH.
Qed.

Section Rolling.

(* [f] is the map applied to the price differences: the clipping of the
   gains or of the losses. *)
Variable f : fval -> fval.
Hypothesis f_nan : f NaN = NaN.
Hypothesis f_fin : forall d, fin_nonneg (f (Fin d)).

Lemma map_diff_from_nonneg (prev : Q) (xs : list Q) :
  Forall fin_nonneg (map f (diff_from prev xs)).
Proof.
  revert prev. induction xs as [|x xs IH]; intro prev; simpl;
    constructor; auto.
Qed.

(* After the warm-up the window holds [p] numbers and the average is a
   non-negative number. *)
Lemma rolling_mean_warm (series : list Q) (p i : nat) :
  (1 <= p <= i)%nat -> (i < length series)%nat ->
  exists g, nth_error (rolling_mean p p (map f (diff series))) i
            = Some (Fin g) /\ 0 <= g.
Proof.
  intros Hp Hi. destruct series as [|x rest]; [simpl in Hi; lia|].
  simpl in Hi.
  rewrite nth_error_rolling_mean
    by (rewrite length_map, length_diff; simpl; lia).
  cbv zeta. unfold window.
  replace (S i - p)%nat with (S (i - p)) by lia.
  simpl diff. simpl map. rewrite firstn_cons, skipn_cons.
  set (w := skipn (i - p) (firstn i (map f (diff_from x rest)))).
  assert (Hw : Forall fin_nonneg w).
  { apply Forall_skipn, Forall_firstn, map_diff_from_nonneg. }
  assert (Hl : length w = p).
  { unfold w. rewrite length_skipn, length_firstn, length_map,
      length_diff_from. lia. }
  rewrite (filter_not_nan_id w Hw), Hl, Nat.leb_refl.
  destruct (mean_obs_nonneg w Hw) as (g & Eg & Hg).
  { intro E. rewrite E in Hl. simpl in Hl. lia. }
  rewrite Hl in Eg. exists g. rewrite Eg. auto.
Qed.

(* During the warm-up the window has fewer than [p] observations and the
   average is NaN. *)
Lemma rolling_mean_cold (series : list Q) (p i : nat) :
  (i < p)%nat -> (i < length series)%nat ->
  nth_error (rolling_mean p p (map f (diff series))) i = Some NaN.
Proof.
  intros Hp Hi. destruct series as [|x rest]; [simpl in Hi; lia|].
  simpl in Hi.
  rewrite nth_error_rolling_mean
    by (rewrite length_map, length_diff; simpl; lia).
  cbv zeta. unfold window.
  replace (S i - p)%nat with 0%nat by lia.
  simpl diff. simpl map. rewrite firstn_cons, f_nan. simpl skipn.
  simpl filter.
  set (obs := filter _ _).
  assert (Hl : (length obs <= i)%nat).
  { unfold obs. etransitivity; [apply filter_length_le|].
    apply firstn_le_length. }
  assert (E : (p <=? length obs)%nat = false) by (apply Nat.leb_gt; lia).
  rewrite E. reflexivity.
Qed.

End Rolling.

(** ** The RSI *)

Lemma rsi_ma_up_warm (series : list Q) (p i : nat) :
  (1 <= p <= i)%nat -> (i < length series)%nat ->
  exists g, nth_error (rsi_ma_up series p) i = Some (Fin g) /\ 0 <= g.
Proof.
  apply (rolling_mean_warm (clip_lower (Fin 0))). apply clip_lower_nonneg.
Qed.

Lemma rsi_ma_down_warm (series : list Q) (p i : nat) :
  (1 <= p <= i)%nat -> (i < length series)%nat ->
  exists l, nth_error (rsi_ma_down series p) i = Some (Fin l) /\ 0 <= l.
Proof.
  apply (rolling_mean_warm
           (fun d => fmul (Fin (-1)) (clip_upper (Fin 0) d))).
  apply neg_clip_upper_nonneg.
Qed.

Lemma rsi_of_rs_finite (q : Q) :
  0 <= q ->
  exists r, rsi_of_rs (Fin q) = Fin r /\ r == 100 - 100 / (1 + q) /\
            0 <= r /\ r <= 100.
Proof.
  intro Hq. unfold rsi_of_rs, fadd, fdiv.
  rewrite Qeqb0_false by lra.
  exists (100 + - (100 / (1 + q))). split; [reflexivity|].
  split; [reflexivity|].
  assert (H1 : 0 <= 100 / (1 + q)) by (apply Qdiv_nonneg; lra).
  assert (H2 : 100 / (1 + q) <= 100) by (apply Qle_shift_div_r; lra).
  split; lra.
Qed.

Lemma rsi_of_gain_loss_pos (g l : Q) :
  0 <= g -> 0 < l ->
  exists r, rsi_of_rs (fdiv (Fin g) (Fin l)) = Fin r /\
            r == 100 - 100 / (1 + g / l) /\ 0 <= r /\ r <= 100.
Proof.
  intros Hg Hl. unfold fdiv. rewrite (Qeqb0_false l Hl).
  apply rsi_of_rs_finite. now apply Qdiv_nonneg.
Qed.

Lemma rsi_of_gain_loss_sat (g l : Q) :
  0 < g -> l == 0 ->
  exists r, rsi_of_rs (fdiv (Fin g) (Fin l)) = Fin r /\ r == 100.
Proof.
  intros Hg Hl. unfold fdiv.
  rewrite (Qeqb0_true l Hl), (Qsign_pos g Hg). simpl.
  eexists. split; [reflexivity|]. reflexivity.
Qed.

Lemma rsi_of_gain_loss_flat (g l : Q) :
  g == 0 -> l == 0 -> rsi_of_rs (fdiv (Fin g) (Fin l)) = NaN.
Proof.
  intros Hg Hl. unfold fdiv.
  rewrite (Qeqb0_true l Hl), (Qsign_zero g Hg). reflexivity.
Qed.

Lemma compute_rsi_cold (series : list Q) (p i : nat) :
  (i < p)%nat -> (i < length series)%nat ->
  nth_error (compute_rsi series p) i = Some NaN.
Proof.
  intros Hp Hi.
  assert (Hu : nth_error (rsi_ma_up series p) i = Some NaN).
  { apply (rolling_mean_cold (clip_lower (Fin 0)));
      [reflexivity | exact Hp | exact Hi]. }
  destruct (nth_error_defined (rsi_ma_down series p) i) as (l & Hl).
  { now rewrite length_rsi_ma_down. }
  rewrite (nth_error_compute_rsi series p i NaN l Hu Hl). reflexivity.
Qed.

Lemma Q_zero_or_pos (q : Q) : 0 <= q -> {q == 0} + {0 < q}.
Proof.
  intro H. destruct (Qlt_le_dec 0 q) as [Hlt|Hle]; [right; exact Hlt|].
  left. lra.
Qed.

(* What the RSI is once the rolling averages are defined. *)
Lemma compute_rsi_warm (series : list Q) (p i : nat) :
  (1 <= p <= i)%nat -> (i < length series)%nat ->
  exists g l,
    nth_error (rsi_ma_up series p) i = Some (Fin g) /\
    nth_error (rsi_ma_down series p) i = Some (Fin l) /\
    0 <= g /\ 0 <= l /\
    ((g == 0 /\ l == 0 /\
      nth_error (compute_rsi series p) i = Some NaN)
     \/
     (~ (g == 0 /\ l == 0) /\
      exists r, nth_error (compute_rsi series p) i = Some (Fin r) /\
                0 <= r /\ r <= 100 /\
                (l == 0 -> r == 100) /\
                (0 < l -> r == 100 - 100 / (1 + g / l)))).
Proof.
  intros Hp Hi.
  destruct (rsi_ma_up_warm series p i Hp Hi) as (g & Eg & Hg).
  destruct (rsi_ma_down_warm series p i Hp Hi) as (l & El & Hl).
  exists g, l. repeat (split; [assumption|]).
  rewrite (nth_error_compute_rsi series p i _ _ Eg El).
  destruct (Q_zero_or_pos l Hl) as [Zl|Pl].
  - destruct (Q_zero_or_pos g Hg) as [Zg|Pg].
    + left. repeat split; try assumption.
      now rewrite rsi_of_gain_loss_flat.
    + right. split.
      { intros [Zg _]. rewrite Zg in Pg. apply (Qlt_irrefl 0), Pg. }
      destruct (rsi_of_gain_loss_sat g l Pg Zl) as (r & Er & Hr).
      exists r. rewrite Er. split; [reflexivity|].
      repeat split; lra.
  - right. split.
    { intros [_ Zl]. rewrite Zl in Pl. apply (Qlt_irrefl 0), Pl. }
    destruct (rsi_of_gain_loss_pos g l Hg Pl) as (r & Er & Hr & H0 & H100).
    exists r. rewrite Er. split; [reflexivity|].
    repeat split; try assumption; [lra | intros _; exact Hr].
Qed.

(* Every value of the RSI column is NaN or a number between 0 and 100. *)
Lemma compute_rsi_entry (series : list Q) (p i : nat) :
  (1 <= p)%nat -> (i < length series)%nat ->
  exists v, nth_error (compute_rsi series p) i = Some v /\
            (v = NaN \/ in_0_100 v).
Proof.
  intros Hp Hi. destruct (Nat.lt_ge_cases i p) as [Hc|Hw].
  - exists NaN. split; [now apply compute_rsi_cold | now left].
  - destruct (compute_rsi_warm series p i (conj Hp Hw) Hi)
      as (g & l & _ & _ & _ & _ & [(_ & _ & E)|(_ & r & E & H0 & H1 & _)]).
    + exists NaN. split; [exact E | now left].
    + exists (Fin r). split; [exact E|]. right. exists r. auto.
Qed.

(** ** The evaluator *)

Lemma py_index_m2 {A : Type} (xs : list A) (x : A) :
  (2 <= length xs)%nat ->
  nth_error xs (length xs - 2) = Some x ->
  py_index xs (-2) = Ok x.
Proof. intros H E. apply (py_index_neg xs 2 x); [lia | exact E]. Qed.

(* On a series of at least six rows [analyze_pair] returns normally; its
   result is decided by the last row, the five rows before it, and the
   indicator values at the row before the last. *)
Lemma analyze_pair_eval (pre w : list candle) (pc : candle) :
  length w = 5%nat ->
  let df := pre ++ w ++ [pc] in
  exists ef es r td tu,
    nth_error (compute_ema (map close df) EMA_FAST) (length df - 2) = Some ef /\
    nth_error (compute_ema (map close df) EMA_SLOW) (length df - 2) = Some es /\
    nth_error (compute_rsi (map close df) RSI_PERIOD) (length df - 2) = Some r /\
    trend_confirmation w "down" 3 = Ok td /\
    trend_confirmation w "up" 3 = Ok tu /\
    analyze_pair (Ok df) =
    Ok ((if is_hammer_candle pc then
           if td && Qltb ef es && vol_ok df (volume pc)
              && fle r (Fin RSI_OVERSOLD)
           then [hammer_signal pc r (avg_vol df)] else []
         else [])
        ++
        (if is_shooting_star_candle pc then
           if tu && Qltb es ef && vol_ok df (volume pc)
              && fge r (Fin RSI_OVERBOUGHT)
           then [star_signal pc r (avg_vol df)] else []
         else [])).
Proof.
  intros Hw df.
  assert (Hlen : length df = (length pre + 6)%nat).
  { unfold df. rewrite !length_app, Hw. simpl. lia. }
  destruct (nth_error_defined (compute_ema (map close df) EMA_FAST)
              (length df - 2)) as (ef & Ef).
  { rewrite length_compute_ema, length_map. lia. }
  destruct (nth_error_defined (compute_ema (map close df) EMA_SLOW)
              (length df - 2)) as (es & Es).
  { rewrite length_compute_ema, length_map. lia. }
  destruct (nth_error_defined (compute_rsi (map close df) RSI_PERIOD)
              (length df - 2)) as (r & Er).
  { rewrite length_compute_rsi, length_map. lia. }
  assert (Hne : w <> []) by (intro E; rewrite E in Hw; discriminate).
  destruct (trend_confirmation_returns w "down" 3 Hne) as (td & Etd).
  destruct (trend_confirmation_returns w "up" 3 Hne) as (tu & Etu).
  exists ef, es, r, td, tu. repeat (split; [assumption|]).
  unfold analyze_pair, fetch_ohlcv_df. cbn [bind].
  assert (E6 : (length df <? 6)%nat = false) by (apply Nat.ltb_ge; lia).
  rewrite E6. cbv zeta.
  assert (Epc : pattern_candle df = Ok pc) by (now apply pattern_candle_app).
  assert (Etc : trend_candles df = w) by (now apply trend_candles_app).
  rewrite Epc, Etc. cbn [bind].
  rewrite (py_index_m2 (compute_ema (map close df) EMA_FAST) ef).
  2: rewrite length_compute_ema, length_map; lia.
  2: rewrite length_compute_ema, length_map in *; exact Ef.
  rewrite (py_index_m2 (compute_ema (map close df) EMA_SLOW) es).
  2: rewrite length_compute_ema, length_map; lia.
  2: rewrite length_compute_ema, length_map in *; exact Es.
  rewrite (py_index_m2 (compute_rsi (map close df) RSI_PERIOD) r).
  2: rewrite length_compute_rsi, length_map; lia.
  2: rewrite length_compute_rsi, length_map in *; exact Er.
  cbn [bind]. rewrite Etd, Etu. cbn [bind].
  unfold hammer_signal, star_signal.
  destruct (is_hammer_candle pc);
    destruct (td && Qltb ef es && vol_ok df (volume pc)
              && fle r (Fin RSI_OVERSOLD));
    destruct (is_shooting_star_candle pc);
    destruct (tu && Qltb es ef && vol_ok df (volume pc)
              && fge r (Fin RSI_OVERBOUGHT));
    reflexivity.
Qed.

(** ** The average volume *)

Lemma mean_nonempty (xs : list Q) :
  xs <> [] -> mean xs = Fin (Qsum xs / Qnat (length xs)).
Proof.
  destruct xs as [|x xs]; [congruence|]. intros _.
  unfold mean, fdiv. simpl length.
  now rewrite (Qeqb0_false _ (Qnat_pos (length xs))).
Qed.

Lemma Qsum_snoc (xs : list Q) (v : Q) : Qsum (xs ++ [v]) = Qsum xs + v.
Proof. unfold Qsum. rewrite fold_left_app. reflexivity. Qed.

Lemma avg_vol_long (pre w : list candle) :
  length w = 20%nat ->
  avg_vol (pre ++ w) = Fin (Qsum (map volume w) / Qnat 20).
Proof.
  intro H. unfold avg_vol.
  assert (E : (20 <=? length (pre ++ w))%nat = true)
    by (apply Nat.leb_le; rewrite length_app; lia).
  rewrite E, map_app, iloc_tail_app by (now rewrite length_map).
  rewrite mean_nonempty.
  - now rewrite length_map, H.
  - intro E0. apply (f_equal (@length Q)) in E0.
    rewrite length_map, H in E0. discriminate.
Qed.

Lemma avg_vol_short (df : list candle) :
  df <> [] -> (length df < 20)%nat ->
  avg_vol df = Fin (Qsum (map volume df) / Qnat (length df)).
Proof.
  intros Hne H. unfold avg_vol.
  assert (E : (20 <=? length df)%nat = false) by (apply Nat.leb_gt; lia).
  rewrite E, mean_nonempty.
  - now rewrite length_map.
  - destruct df; [congruence | discriminate].
Qed.

Lemma avg_vol_fin (df : list candle) :
  df <> [] -> exists a, avg_vol df = Fin a.
Proof.
  intro Hne. destruct (Nat.lt_ge_cases (length df) 20) as [Hs|Hl].
  - eexists. now apply avg_vol_short.
  - rewrite <- (firstn_skipn (length df - 20) df).
    eexists. apply avg_vol_long. rewrite length_skipn. lia.
Qed.

Lemma vol_ok_iff (df : list candle) (a v : Q) :
  avg_vol df = Fin a ->
  vol_ok df v = true <-> a * VOLUME_MULTIPLIER <= v.
Proof.
  intro E. unfold vol_ok, fge. rewrite E. simpl. apply Qle_bool_iff.
Qed.

Lemma pattern_candle_defined (df : list candle) :
  (6 <= length df)%nat ->
  exists rest pc, df = rest ++ [pc] /\ pattern_candle df = Ok pc.
Proof.
  intro H. destruct (split_last6 df H) as (pre & w & pc & -> & Hw).
  exists (pre ++ w), pc. split.
  - now rewrite app_assoc.
  - now apply pattern_candle_app.
Qed.

Lemma analyze_pair_fetch_error (e : exn) : analyze_pair (Raise e) = Ok [].
Proof. reflexivity. Qed.

Lemma analyze_pair_short (df : list candle) :
  (length df < 6)%nat -> analyze_pair (Ok df) = Ok [].
Proof.
  intro H. unfold analyze_pair, fetch_ohlcv_df. cbn [bind].
  apply Nat.ltb_lt in H. now rewrite H.
Qed.

(** * The claims *)

(** C6.  No candle is both a hammer and a shooting star, and so
    [analyze_pair] returns at most one signal for an answer of the
    exchange (and always returns). *)
Theorem classifiers_mutually_exclusive (c : candle)
    (response : result (list candle)) :
  is_hammer_candle c && is_shooting_star_candle c = false /\
  exists signals,
    analyze_pair response = Ok signals /\ (length signals <= 1)%nat.
Proof.
  split; [apply classifiers_exclusive|].
  destruct response as [df|e].
  2: { exists []. split; [reflexivity | simpl; lia]. }
  destruct (Nat.lt_ge_cases (length df) 6) as [Hs|Hl].
  { exists []. split; [now apply analyze_pair_short | simpl; lia]. }
  destruct (split_last6 df Hl) as (pre & w & pc & -> & Hw).
  destruct (analyze_pair_eval pre w pc Hw)
    as (ef & es & r & td & tu & _ & _ & _ & _ & _ & E).
  eexists. split; [exact E|].
  pose proof (classifiers_exclusive pc) as Hx.
  destruct (is_hammer_candle pc); destruct (is_shooting_star_candle pc);
    try discriminate Hx;
    repeat match goal with |- context [if ?b then _ else _] => destruct b end;
    simpl; lia.
Qed.

(** C4.  [trend_confirmation] with direction "down" returns true exactly
    when at least [required_count] candles of the window are bearish
    (close < open) and the last close of the window is strictly below its
    first close; direction "up" is the same with bullish candles and a last
    close strictly above the first.  The window [analyze_pair] passes,
    [trend_candles df], is the five rows right before the pattern candle
    and does not include it. *)
Theorem trend_confirmation_spec (w df : list candle) (required_count : Z) :
  (trend_confirmation w "down" required_count = Ok true <->
   (required_count <= count_bearish w)%Z /\
   exists c_first c_last,
     first_row w = Some c_first /\ last_row w = Some c_last /\
     close c_last < close c_first) /\
  (trend_confirmation w "up" required_count = Ok true <->
   (required_count <= count_bullish w)%Z /\
   exists c_first c_last,
     first_row w = Some c_first /\ last_row w = Some c_last /\
     close c_first < close c_last) /\
  ((6 <= length df)%nat ->
   exists pre pc,
     df = pre ++ trend_candles df ++ [pc] /\
     length (trend_candles df) = 5%nat /\
     pattern_candle df = Ok pc).
Proof.
  split; [apply trend_confirmation_down_iff|].
  split; [apply trend_confirmation_up_iff|].
  intro H. destruct (split_last6 df H) as (pre & w' & pc & -> & Hw).
  exists pre, pc. rewrite trend_candles_app by exact Hw.
  repeat split; [exact Hw | now apply pattern_candle_app].
Qed.

Lemma trend_confirmation_spec_witness :
  exists pre pc,
    scenario_df = pre ++ trend_candles scenario_df ++ [pc] /\
    length (trend_candles scenario_df) = 5%nat /\
    pattern_candle scenario_df = Ok pc.
Proof.
  apply (trend_confirmation_spec (trend_candles scenario_df) scenario_df 3).
  vm_compute. lia.
Defined.

(** C10.  The average volume of the volume filter is taken over the last
    20 rows of the fetched series, the pattern candle among them (over the
    whole series when it has fewer than 20 rows): it is the sum of the
    volumes of the n - 1 rows before the pattern candle plus the volume of
    the pattern candle itself, divided by n = min(20, length). *)
Theorem avg_vol_includes_pattern_candle (df : list candle) :
  (6 <= length df)%nat ->
  exists older prev pc,
    df = older ++ prev ++ [pc] /\
    pattern_candle df = Ok pc /\
    length prev = (Nat.min 20 (length df) - 1)%nat /\
    avg_vol df =
    Fin ((Qsum (map volume prev) + volume pc)
         / Qnat (Nat.min 20 (length df))).
Proof.
  intro H. destruct (pattern_candle_defined df H) as (rest & pc & Edf & Epc).
  assert (Hr : length df = S (length rest)).
  { rewrite Edf, length_app. simpl. lia. }
  destruct (Nat.lt_ge_cases (length df) 20) as [Hs|Hl].
  - exists [], rest, pc.
    split; [exact Edf|]. split; [exact Epc|].
    replace (Nat.min 20 (length df)) with (length df) by lia.
    split; [lia|].
    rewrite avg_vol_short by (trivial; intro E; rewrite E in H; simpl in H; lia).
    rewrite Edf at 1. rewrite map_app. simpl map. now rewrite Qsum_snoc.
  - set (older := firstn (length rest - 19) rest).
    set (prev := skipn (length rest - 19) rest).
    assert (Er : rest = older ++ prev) by (symmetry; apply firstn_skipn).
    assert (Hp : length prev = 19%nat)
      by (unfold prev; rewrite length_skipn; lia).
    exists older, prev, pc.
    replace (Nat.min 20 (length df)) with 20%nat by lia.
    split; [now rewrite app_assoc, <- Er|]. split; [exact Epc|].
    split; [exact Hp|].
    rewrite Edf, Er, <- app_assoc.
    rewrite avg_vol_long by (rewrite length_app, Hp; reflexivity).
    rewrite map_app. simpl map. now rewrite Qsum_snoc.
Qed.

Lemma avg_vol_includes_pattern_candle_witness :
  exists older prev pc,
    scenario_df = older ++ prev ++ [pc] /\
    pattern_candle scenario_df = Ok pc /\
    length prev = (Nat.min 20 (length scenario_df) - 1)%nat /\
    avg_vol scenario_df =
    Fin ((Qsum (map volume prev) + volume pc)
         / Qnat (Nat.min 20 (length scenario_df))).
Proof.
  apply (avg_vol_includes_pattern_candle scenario_df). vm_compute. lia.
Defined.

(** C8.  For every time t in whole seconds, [seconds_to_next_15min] returns
    s with 0 <= s < 900 and t + s a multiple of 900.  At the end of a cycle
    the loop sleeps s + 1 seconds (one second of settle delay), and
    900 + 1 seconds when s is zero. *)
Theorem scheduler_spec (t : Z) :
  let s := seconds_to_next_15min t in
  (0 <= s < 900)%Z /\
  ((t + s) mod 900 = 0)%Z /\
  ((s <> 0%Z /\ cycle_sleep t = (s + 1)%Z) \/
   (s = 0%Z /\ cycle_sleep t = (900 + 1)%Z)).
Proof.
  unfold cycle_sleep, seconds_to_next_15min. cbv zeta.
  change (15 * 60)%Z with 900%Z.
  pose proof (Z.mod_pos_bound t 900 ltac:(lia)) as Hb.
  destruct (t mod 900 =? 0)%Z eqn:E; simpl negb; cbv iota.
  - apply Z.eqb_eq in E. simpl.
    split; [lia|]. split; [rewrite Z.add_0_r; exact E|]. right. auto.
  - apply Z.eqb_neq in E.
    assert (Hs : (900 - t mod 900 =? 0)%Z = false) by (apply Z.eqb_neq; lia).
    rewrite Hs.
    split; [lia|]. split.
    + replace (t + (900 - t mod 900))%Z with (t - t mod 900 + 1 * 900)%Z
        by lia.
      rewrite Z.mod_add by lia.
      rewrite Zminus_mod, Z.mod_mod, Z.sub_diag by lia. reflexivity.
    + left. split; [lia | reflexivity].
Qed.

(** ** Insufficient history *)

Lemma analyze_pair_cold (df : list candle) :
  (length df < 16)%nat -> analyze_pair (Ok df) = Ok [].
Proof.
  intro H. destruct (Nat.lt_ge_cases (length df) 6) as [Hs|Hl].
  { now apply analyze_pair_short. }
  destruct (split_last6 df Hl) as (pre & w & pc & E & Hw).
  destruct (analyze_pair_eval pre w pc Hw)
    as (ef & es & r & td & tu & _ & _ & Er & _ & _ & Ea).
  rewrite <- E in Er, Ea. rewrite Ea.
  rewrite compute_rsi_cold in Er.
  - injection Er as <-.
    change (fle NaN (Fin RSI_OVERSOLD)) with false.
    change (fge NaN (Fin RSI_OVERBOUGHT)) with false.
    rewrite !andb_false_r.
    destruct (is_hammer_candle pc), (is_shooting_star_candle pc); reflexivity.
  - unfold RSI_PERIOD. lia.
  - rewrite length_map. lia.
Qed.

(** C9.  When the fetch raises, or the fetched series is too short (fewer
    than the 6 rows of the trend window and pattern candle, or fewer than
    the 16 rows from which the RSI of the row before the last is defined),
    [analyze_pair] returns the empty list without raising; the pair gives
    no signal in this cycle and the scan goes on with the other pairs. *)
Theorem analyze_pair_skips (response : result (list candle))
    (before after : list (result (list candle))) :
  (exists e, response = Raise e) \/
  (exists df, response = Ok df /\ (length df < 16)%nat) ->
  analyze_pair response = Ok [] /\
  scan_pair response = [] /\
  scan_cycle (before ++ response :: after) =
  scan_cycle before ++ [] :: scan_cycle after.
Proof.
  intro H.
  assert (E : analyze_pair response = Ok []).
  { destruct H as [(e & ->)|(df & -> & Hlen)].
    - apply analyze_pair_fetch_error.
    - now apply analyze_pair_cold. }
  assert (E' : scan_pair response = []) by (unfold scan_pair; now rewrite E).
  repeat split; trivial.
  unfold scan_cycle. rewrite map_app. simpl. now rewrite E'.
Qed.

Lemma analyze_pair_skips_witness :
  analyze_pair (Ok (skipn 7 scenario_df)) = Ok [] /\
  scan_pair (Ok (skipn 7 scenario_df)) = [] /\
  scan_cycle ([Raise (FetchError "timeout")]
              ++ Ok (skipn 7 scenario_df) :: [Ok scenario_df]) =
  scan_cycle [Raise (FetchError "timeout")]
  ++ [] :: scan_cycle [Ok scenario_df].
Proof.
  apply (analyze_pair_skips (Ok (skipn 7 scenario_df))).
  right. exists (skipn 7 scenario_df). split; [reflexivity|].
  vm_compute. lia.
Defined.

(** ** RSI range *)

(* On a flat market both rolling averages are zero at row 14, the first
   row after the warm-up, and the RSI there is NaN: it is neither 100 nor
   any other number between 0 and 100. *)
Lemma rsi_flat_counterexample :
  (exists loss,
     nth_error (rsi_ma_down flat_series RSI_PERIOD) 14 = Some (Fin loss) /\
     loss == 0) /\
  nth_error (compute_rsi flat_series RSI_PERIOD) 14 = Some NaN /\
  ~ (forall (series : list Q) (i : nat),
       (RSI_PERIOD <= i < length series)%nat ->
       exists v, nth_error (compute_rsi series RSI_PERIOD) i = Some v /\
                 in_0_100 v).
Proof.
  split; [|split].
  - eexists. split; [vm_compute; reflexivity | reflexivity].
  - vm_compute. reflexivity.
  - intro H.
    destruct (H flat_series 14%nat) as (v & E & r & Er & _).
    + vm_compute. lia.
    + vm_compute in E. congruence.
Qed.

(** C3 (amended).  Once the rolling averages are defined (row i with
    period <= i), both are non-negative numbers; the RSI of the row is NaN
    when both averages are zero, and otherwise a number between 0 and 100,
    equal to 100 when the loss average is zero and to
    100 - 100/(1 + gain/loss) when it is positive.  No exception is
    raised in any case. *)
Theorem rsi_after_warm_up (series : list Q) (period i : nat) :
  (1 <= period <= i)%nat -> (i < length series)%nat ->
  exists gain loss,
    nth_error (rsi_ma_up series period) i = Some (Fin gain) /\
    nth_error (rsi_ma_down series period) i = Some (Fin loss) /\
    0 <= gain /\ 0 <= loss /\
    ((gain == 0 /\ loss == 0 /\
      nth_error (compute_rsi series period) i = Some NaN)
     \/
     (~ (gain == 0 /\ loss == 0) /\
      exists r, nth_error (compute_rsi series period) i = Some (Fin r) /\
                0 <= r /\ r <= 100 /\
                (loss == 0 -> r == 100) /\
                (0 < loss -> r == 100 - 100 / (1 + gain / loss)))).
Proof. apply compute_rsi_warm. Qed.

Lemma rsi_after_warm_up_witness :
  exists gain loss,
    nth_error (rsi_ma_up (map close scenario_df) RSI_PERIOD) 15
    = Some (Fin gain) /\
    nth_error (rsi_ma_down (map close scenario_df) RSI_PERIOD) 15
    = Some (Fin loss) /\
    0 <= gain /\ 0 <= loss /\
    ((gain == 0 /\ loss == 0 /\
      nth_error (compute_rsi (map close scenario_df) RSI_PERIOD) 15
      = Some NaN)
     \/
     (~ (gain == 0 /\ loss == 0) /\
      exists r,
        nth_error (compute_rsi (map close scenario_df) RSI_PERIOD) 15
        = Some (Fin r) /\
        0 <= r /\ r <= 100 /\
        (loss == 0 -> r == 100) /\
        (0 < loss -> r == 100 - 100 / (1 + gain / loss)))).
Proof.
  apply (rsi_after_warm_up (map close scenario_df) RSI_PERIOD 15).
  - unfold RSI_PERIOD. lia.
  - vm_compute. lia.
Defined.

(** ** The composite rule *)

Lemma fle_fin_iff (r : fval) (c : Q) :
  r = NaN \/ in_0_100 r ->
  fle r (Fin c) = true <-> exists q, r = Fin q /\ q <= c.
Proof.
  intros [->|(q & -> & _)]; simpl.
  - split; [discriminate | intros (q & E & _); discriminate].
  - rewrite Qle_bool_iff. split.
    + intro H. exists q. auto.
    + intros (q' & E & H). injection E as <-. exact H.
Qed.

Lemma fge_fin_iff (r : fval) (c : Q) :
  r = NaN \/ in_0_100 r ->
  fge r (Fin c) = true <-> exists q, r = Fin q /\ c <= q.
Proof.
  intros [->|(q & -> & _)]; unfold fge; simpl.
  - split; [discriminate | intros (q & E & _); discriminate].
  - rewrite Qle_bool_iff. split.
    + intro H. exists q. auto.
    + intros (q' & E & H). injection E as <-. exact H.
Qed.

(* The falling market followed by the hammer gives one HAMMER / LONG
   signal at the close of the hammer, 99. *)
Example analyze_pair_scenario :
  exists r a,
    analyze_pair (Ok scenario_df) = Ok [hammer_signal hammer_candle r a] /\
    price (hammer_signal hammer_candle r a) = 99.
Proof. do 2 eexists. split; vm_compute; reflexivity. Qed.

(* The candle open 100, high 101, low 90, close 99 has an upper shadow of
   1, which is not below 0.6 times its body of 1: it is not a hammer. *)
Example upper_shadow_one_not_hammer :
  is_hammer_candle (mkCandle 0 100 101 90 99 10) = false.
Proof. reflexivity. Qed.

(** ** Closed candles *)

(* The series that is analysed is the answer of the exchange, unchanged:
   no row is dropped, whatever its open time. *)
Lemma analyzed_series_is_response (data : list candle) :
  analyzed_series (Ok data) = data.
Proof. reflexivity. Qed.

(** C2 (the code does otherwise).  The exchange answers with its most
    recent rows, the candle in formation last.  One second after a
    boundary, on an answer whose first sixteen rows are closed and whose
    last row opened at that boundary, the analysed series contains the
    forming row, the pattern candle is that row, and a signal is emitted on
    it. *)
Theorem forming_candle_is_analyzed :
  forallb (candle_closed scenario_now_ms) (removelast scenario_df) = true /\
  candle_closed scenario_now_ms hammer_candle = false /\
  In hammer_candle (analyzed_series (Ok scenario_df)) /\
  pattern_candle scenario_df = Ok hammer_candle /\
  exists r a,
    analyze_pair (Ok scenario_df) = Ok [hammer_signal hammer_candle r a] /\
    pattern_time (hammer_signal hammer_candle r a) = ts hammer_candle.
Proof.
  split; [vm_compute; reflexivity|].
  split; [vm_compute; reflexivity|].
  split.
  { rewrite analyzed_series_is_response. unfold scenario_df.
    apply in_or_app. right. left. reflexivity. }
  split; [vm_compute; reflexivity|].
  do 2 eexists. split; vm_compute; reflexivity.
Qed.

(** * Further properties of the code *)

(** ** Exponential moving average *)

Lemma Qnat_ge_1 (p : nat) : (1 <= p)%nat -> 1 <= Qnat p.
Proof. intro H. unfold Qnat, Qle. simpl. lia. Qed.

Lemma Qnat_lt (p q : nat) : (p < q)%nat -> Qnat p < Qnat q.
Proof. intro H. unfold Qnat, Qlt. simpl. lia. Qed.

(* The smoothing factor 2/(span+1) of a span >= 1 lies in (0, 1]. *)
Lemma alpha_range (p : nat) :
  (1 <= p)%nat ->
  0 < 2 / (Qnat p + 1) /\ 2 / (Qnat p + 1) <= 1.
Proof.
  intro H. pose proof (Qnat_ge_1 p H) as Hp. split.
  - apply Qlt_shift_div_l; lra.
  - apply Qle_shift_div_r; lra.
Qed.

(* A longer span has a strictly smaller smoothing factor. *)
Lemma alpha_decreasing (p q : nat) :
  (1 <= p < q)%nat -> 2 / (Qnat q + 1) < 2 / (Qnat p + 1).
Proof.
  intros [H1 H2]. pose proof (Qnat_ge_1 p H1) as Hp.
  pose proof (Qnat_lt p q H2) as Hq.
  apply Qlt_shift_div_l; [lra|].
  setoid_replace (2 / (Qnat q + 1) * (Qnat p + 1))
    with (2 * (Qnat p + 1) / (Qnat q + 1)) by (field; lra).
  apply Qlt_shift_div_r; lra.
Qed.

Lemma ema_step_bounds (alpha lo hi prev x : Q) :
  0 <= alpha -> alpha <= 1 ->
  lo <= prev <= hi -> lo <= x <= hi ->
  lo <= (1 - alpha) * prev + alpha * x <= hi.
Proof.
  intros Ha0 Ha1 [Hp1 Hp2] [Hx1 Hx2].
  assert (A1 : 0 <= (1 - alpha) * (prev - lo))
    by (apply Qmult_le_0_compat; lra).
  assert (A2 : 0 <= alpha * (x - lo)) by (apply Qmult_le_0_compat; lra).
  assert (A3 : 0 <= (1 - alpha) * (hi - prev))
    by (apply Qmult_le_0_compat; lra).
  assert (A4 : 0 <= alpha * (hi - x)) by (apply Qmult_le_0_compat; lra).
  split; lra.
Qed.

Lemma ema_from_bounds (alpha lo hi prev : Q) (xs : list Q) :
  0 <= alpha -> alpha <= 1 ->
  lo <= prev <= hi ->
  Forall (fun x => lo <= x <= hi) xs ->
  Forall (fun y => lo <= y <= hi) (ema_from alpha prev xs).
Proof.
  intros Ha0 Ha1 Hp Hxs. revert prev Hp.
  induction Hxs as [|x xs Hx _ IH]; intros prev Hp; simpl.
  - constructor.
  - pose proof (ema_step_bounds alpha lo hi prev x Ha0 Ha1 Hp Hx) as Hy.
    constructor; [exact Hy | apply IH; exact Hy].
Qed.

Lemma compute_ema_in_range (series : list Q) (period : nat) (lo hi : Q) :
  (1 <= period)%nat ->
  Forall (fun x => lo <= x <= hi) series ->
  Forall (fun y => lo <= y <= hi) (compute_ema series period).
Proof.
  intros Hp Hs. destruct (alpha_range period Hp) as [Ha0 Ha1].
  unfold compute_ema. cbv zeta.
  destruct Hs as [|x xs Hx Hxs]; constructor; [exact Hx|].
  apply ema_from_bounds; trivial. lra.
Qed.

(* Two averages run over the same falling prices, the first with the larger
   smoothing factor: from the first step on it is strictly below the
   second, and both stay at or above the current price. *)
Lemma ema_from_falling_order (a b : Q) (xs : list Q) :
  0 < b -> b < a -> a <= 1 ->
  forall (x0 pf ps : Q),
    x0 <= pf -> pf <= ps -> falling_from x0 xs ->
    forall (i : nat) (ef es : Q),
      nth_error (ema_from a pf xs) i = Some ef ->
      nth_error (ema_from b ps xs) i = Some es ->
      ef < es.
Proof.
  intros Hb Hab Ha.
  induction xs as [|x xs IH]; intros x0 pf ps H0 Hps Hf i ef es Ef Es.
  - destruct i; discriminate.
  - destruct Hf as [Hx Hf]. simpl in Ef, Es.
    assert (A1 : 0 <= (1 - a) * (ps - pf))
      by (apply Qmult_le_0_compat; lra).
    assert (A2 : 0 < (a - b) * (ps - x))
      by (apply Qmult_lt_0_compat; lra).
    assert (A3 : 0 <= (1 - a) * (pf - x))
      by (apply Qmult_le_0_compat; lra).
    destruct i as [|i].
    + injection Ef as <-. injection Es as <-. lra.
    + simpl in Ef, Es.
      apply (IH x ((1 - a) * pf + a * x) ((1 - b) * ps + b * x))
        with (i := i); trivial; lra.
Qed.

Lemma ema_from_rising_order (a b : Q) (xs : list Q) :
  0 < b -> b < a -> a <= 1 ->
  forall (x0 pf ps : Q),
    pf <= x0 -> ps <= pf -> rising_from x0 xs ->
    forall (i : nat) (ef es : Q),
      nth_error (ema_from a pf xs) i = Some ef ->
      nth_error (ema_from b ps xs) i = Some es ->
      es < ef.
Proof.
  intros Hb Hab Ha.
  induction xs as [|x xs IH]; intros x0 pf ps H0 Hps Hf i ef es Ef Es.
  - destruct i; discriminate.
  - destruct Hf as [Hx Hf]. simpl in Ef, Es.
    assert (A1 : 0 <= (1 - a) * (pf - ps))
      by (apply Qmult_le_0_compat; lra).
    assert (A2 : 0 < (a - b) * (x - ps))
      by (apply Qmult_lt_0_compat; lra).
    assert (A3 : 0 <= (1 - a) * (x - pf))
      by (apply Qmult_le_0_compat; lra).
    destruct i as [|i].
    + injection Ef as <-. injection Es as <-. lra.
    + simpl in Ef, Es.
      apply (IH x ((1 - a) * pf + a * x) ((1 - b) * ps + b * x))
        with (i := i); trivial; lra.
Qed.

Lemma compute_ema_falling_order (series : list Q) (p_fast p_slow i : nat)
    (ef es : Q) :
  (1 <= p_fast < p_slow)%nat -> strictly_falling series -> (1 <= i)%nat ->
  nth_error (compute_ema series p_fast) i = Some ef ->
  nth_error (compute_ema series p_slow) i = Some es ->
  ef < es.
Proof.
  intros Hp Hf Hi Ef Es.
  destruct (alpha_range p_fast ltac:(lia)) as [_ Ha1].
  destruct (alpha_range p_slow ltac:(lia)) as [Hb0 _].
  pose proof (alpha_decreasing p_fast p_slow Hp) as Hab.
  destruct series as [|x xs]; [destruct i; discriminate|].
  destruct i as [|i]; [lia|].
  unfold compute_ema in Ef, Es. cbv zeta in Ef, Es. simpl in Ef, Es.
  apply (ema_from_falling_order _ _ xs Hb0 Hab Ha1 x x x) with (i := i);
    trivial; lra.
Qed.

Lemma compute_ema_rising_order (series : list Q) (p_fast p_slow i : nat)
    (ef es : Q) :
  (1 <= p_fast < p_slow)%nat -> strictly_rising series -> (1 <= i)%nat ->
  nth_error (compute_ema series p_fast) i = Some ef ->
  nth_error (compute_ema series p_slow) i = Some es ->
  es < ef.
Proof.
  intros Hp Hf Hi Ef Es.
  destruct (alpha_range p_fast ltac:(lia)) as [_ Ha1].
  destruct (alpha_range p_slow ltac:(lia)) as [Hb0 _].
  pose proof (alpha_decreasing p_fast p_slow Hp) as Hab.
  destruct series as [|x xs]; [destruct i; discriminate|].
  destruct i as [|i]; [lia|].
  unfold compute_ema in Ef, Es. cbv zeta in Ef, Es. simpl in Ef, Es.
  apply (ema_from_rising_order _ _ xs Hb0 Hab Ha1 x x x) with (i := i);
    trivial; lra.
Qed.

(** ** RSI of one-directional markets *)

(* After the warm-up the rolling average of row i is the plain mean of the
   p values of its window, all taken after the first (NaN) difference. *)
Lemma rolling_mean_warm_window (f : fval -> fval) (P : fval -> Prop)
    (series : list Q) (p i : nat) :
  (forall d, fin_nonneg (f (Fin d))) ->
  (1 <= p <= i)%nat -> (i < length series)%nat ->
  Forall P (tl (map f (diff series))) ->
  exists w,
    Forall P w /\ length w = p /\
    nth_error (rolling_mean p p (map f (diff series))) i
    = Some (fdiv (fsum w) (Fin (Qnat p))).
Proof.
  intros Hf Hp Hi HP. destruct series as [|x rest]; [simpl in Hi; lia|].
  simpl in Hi. simpl in HP.
  rewrite nth_error_rolling_mean
    by (rewrite length_map, length_diff; simpl; lia).
  cbv zeta. unfold window.
  replace (S i - p)%nat with (S (i - p)) by lia.
  simpl diff. simpl map. rewrite firstn_cons, skipn_cons.
  set (w := skipn (i - p) (firstn i (map f (diff_from x rest)))).
  assert (Hw : Forall fin_nonneg w).
  { apply Forall_skipn, Forall_firstn, map_diff_from_nonneg, Hf. }
  assert (Hl : length w = p).
  { unfold w. rewrite length_skipn, length_firstn, length_map,
      length_diff_from. lia. }
  exists w. split; [apply Forall_skipn, Forall_firstn, HP|].
  split; [exact Hl|].
  now rewrite (filter_not_nan_id w Hw), Hl, Nat.leb_refl.
Qed.

Lemma fsum_from_zero (xs : list fval) (a : Q) :
  Forall fin_zero xs ->
  exists s, fold_left fadd xs (Fin a) = Fin s /\ s == a.
Proof.
  intro H. revert a. induction H as [|x xs (q & -> & Hq) _ IH]; intro a.
  - exists a. split; reflexivity.
  - simpl. destruct (IH (a + q)) as (s & Es & Hs).
    exists s. split; [exact Es | lra].
Qed.

Lemma fsum_from_pos (xs : list fval) (a : Q) :
  Forall fin_pos xs ->
  exists s, fold_left fadd xs (Fin a) = Fin s /\ a <= s /\
            (xs <> [] -> a < s).
Proof.
  intro H. revert a. induction H as [|x xs (q & -> & Hq) _ IH]; intro a.
  - exists a. repeat split; [lra | congruence].
  - simpl. destruct (IH (a + q)) as (s & Es & Hs & _).
    exists s. repeat split; [exact Es | lra | intros _; lra].
Qed.

Lemma mean_window_zero (w : list fval) (p : nat) :
  (1 <= p)%nat -> Forall fin_zero w ->
  exists g, fdiv (fsum w) (Fin (Qnat p)) = Fin g /\ g == 0.
Proof.
  intros Hp Hw. destruct (fsum_from_zero w 0 Hw) as (s & Es & Hs).
  destruct p as [|p]; [lia|].
  unfold fsum. rewrite Es. unfold fdiv.
  rewrite (Qeqb0_false _ (Qnat_pos p)).
  exists (s / Qnat (S p)). split; [reflexivity|].
  rewrite Hs. unfold Qdiv. apply Qmult_0_l.
Qed.

Lemma mean_window_pos (w : list fval) (p : nat) :
  (1 <= p)%nat -> length w = p -> Forall fin_pos w ->
  exists l, fdiv (fsum w) (Fin (Qnat p)) = Fin l /\ 0 < l.
Proof.
  intros Hp Hl Hw. destruct (fsum_from_pos w 0 Hw) as (s & Es & _ & Hs).
  destruct p as [|p]; [lia|].
  unfold fsum. rewrite Es. unfold fdiv.
  rewrite (Qeqb0_false _ (Qnat_pos p)).
  exists (s / Qnat (S p)). split; [reflexivity|].
  apply Qlt_shift_div_l; [apply Qnat_pos|].
  rewrite Qmult_0_l. apply Hs. intro E. rewrite E in Hl. discriminate.
Qed.

Lemma diff_from_falling (x : Q) (rest : list Q) :
  falling_from x rest -> Forall fin_neg (diff_from x rest).
Proof.
  revert x. induction rest as [|y rest IH]; intros x H; simpl.
  - constructor.
  - destruct H as [Hy H]. constructor; [|now apply IH].
    exists (y - x). split; [reflexivity | lra].
Qed.

Lemma diff_from_rising (x : Q) (rest : list Q) :
  rising_from x rest -> Forall fin_pos (diff_from x rest).
Proof.
  revert x. induction rest as [|y rest IH]; intros x H; simpl.
  - constructor.
  - destruct H as [Hy H]. constructor; [|now apply IH].
    exists (y - x). split; [reflexivity | lra].
Qed.

Lemma Qle_bool_false (a b : Q) : b < a -> Qle_bool a b = false.
Proof.
  intro H. destruct (Qle_bool a b) eqn:E; trivial.
  apply Qle_bool_iff in E. lra.
Qed.

Lemma Qle_bool_true (a b : Q) : a <= b -> Qle_bool a b = true.
Proof. apply Qle_bool_iff. Qed.

(* Gains and losses of a fall: no gain, a positive loss. *)
Lemma gain_of_fall (v : fval) : fin_neg v -> fin_zero (clip_lower (Fin 0) v).
Proof.
  intros (d & -> & Hd). unfold clip_lower, flt, fle.
  rewrite (Qle_bool_false 0 d Hd). simpl. exists 0. split; reflexivity.
Qed.

Lemma loss_of_fall (v : fval) :
  fin_neg v -> fin_pos (fmul (Fin (-1)) (clip_upper (Fin 0) v)).
Proof.
  intros (d & -> & Hd). unfold clip_upper, fgt, flt, fle.
  rewrite (Qle_bool_true d 0) by lra. simpl.
  exists (-1 * d). split; [reflexivity | lra].
Qed.

(* Gains and losses of a rise: a positive gain, no loss. *)
Lemma gain_of_rise (v : fval) : fin_pos v -> fin_pos (clip_lower (Fin 0) v).
Proof.
  intros (d & -> & Hd). unfold clip_lower, flt, fle.
  rewrite (Qle_bool_true 0 d) by lra. simpl. exists d. auto.
Qed.

Lemma loss_of_rise (v : fval) :
  fin_pos v -> fin_zero (fmul (Fin (-1)) (clip_upper (Fin 0) v)).
Proof.
  intros (d & -> & Hd). unfold clip_upper, fgt, flt, fle.
  rewrite (Qle_bool_false d 0 Hd). simpl.
  exists (-1 * 0). split; [reflexivity | lra].
Qed.

Lemma Forall_map_impl {A B : Type} (P : A -> Prop) (R : B -> Prop)
    (f : A -> B) (l : list A) :
  (forall a, P a -> R (f a)) -> Forall P l -> Forall R (map f l).
Proof.
  intros H HP. induction HP; simpl; constructor; auto.
Qed.

Lemma compute_rsi_falling (series : list Q) (p i : nat) :
  (1 <= p <= i)%nat -> (i < length series)%nat ->
  strictly_falling series ->
  exists r, nth_error (compute_rsi series p) i = Some (Fin r) /\ r == 0.
Proof.
  intros Hp Hi Hf.
  assert (Hd : Forall fin_neg (tl (diff series))).
  { destruct series as [|x rest]; [constructor|].
    simpl. now apply diff_from_falling. }
  destruct (rolling_mean_warm_window (clip_lower (Fin 0)) fin_zero
              series p i clip_lower_nonneg Hp Hi)
    as (wu & Hwu & _ & Eu).
  { destruct series; simpl in *; [constructor|].
    eapply Forall_map_impl; [apply gain_of_fall | exact Hd]. }
  destruct (rolling_mean_warm_window
              (fun d => fmul (Fin (-1)) (clip_upper (Fin 0) d)) fin_pos
              series p i neg_clip_upper_nonneg Hp Hi)
    as (wd & Hwd & Hld & Ed).
  { destruct series; simpl in *; [constructor|].
    eapply Forall_map_impl; [apply loss_of_fall | exact Hd]. }
  destruct (mean_window_zero wu p ltac:(lia) Hwu) as (g & Eg & Hg).
  destruct (mean_window_pos wd p ltac:(lia) Hld Hwd) as (l & El & Hl).
  rewrite Eg in Eu. rewrite El in Ed.
  destruct (rsi_of_gain_loss_pos g l ltac:(lra) Hl) as (r & Er & Hr & _).
  exists r. split.
  - rewrite <- Er. now apply nth_error_compute_rsi.
  - rewrite Hr, Hg. field. lra.
Qed.

Lemma compute_rsi_rising (series : list Q) (p i : nat) :
  (1 <= p <= i)%nat -> (i < length series)%nat ->
  strictly_rising series ->
  exists r, nth_error (compute_rsi series p) i = Some (Fin r) /\ r == 100.
Proof.
  intros Hp Hi Hf.
  assert (Hd : Forall fin_pos (tl (diff series))).
  { destruct series as [|x rest]; [constructor|].
    simpl. now apply diff_from_rising. }
  destruct (rolling_mean_warm_window (clip_lower (Fin 0)) fin_pos
              series p i clip_lower_nonneg Hp Hi)
    as (wu & Hwu & Hlu & Eu).
  { destruct series; simpl in *; [constructor|].
    eapply Forall_map_impl; [apply gain_of_rise | exact Hd]. }
  destruct (rolling_mean_warm_window
              (fun d => fmul (Fin (-1)) (clip_upper (Fin 0) d)) fin_zero
              series p i neg_clip_upper_nonneg Hp Hi)
    as (wd & Hwd & _ & Ed).
  { destruct series; simpl in *; [constructor|].
    eapply Forall_map_impl; [apply loss_of_rise | exact Hd]. }
  destruct (mean_window_pos wu p ltac:(lia) Hlu Hwu) as (g & Eg & Hg).
  destruct (mean_window_zero wd p ltac:(lia) Hwd) as (l & El & Hl).
  rewrite Eg in Eu. rewrite El in Ed.
  destruct (rsi_of_gain_loss_sat g l Hg Hl) as (r & Er & Hr).
  exists r. split; [|exact Hr].
  rewrite <- Er. now apply nth_error_compute_rsi.
Qed.

(** ** A row of an indicator depends on the rows up to it only *)

Lemma diff_from_app (x : Q) (xs ys : list Q) :
  diff_from x (xs ++ ys) = diff_from x xs ++ diff_from (last xs x) ys.
Proof.
  revert x. induction xs as [|y xs IH]; intro x; [reflexivity|].
  change (diff_from x ((y :: xs) ++ ys))
    with (Fin (y - x) :: diff_from y (xs ++ ys)).
  rewrite IH, last_cons_default. reflexivity.
Qed.

Lemma diff_app_prefix (s t : list Q) :
  exists tail, diff (s ++ t) = diff s ++ tail.
Proof.
  destruct s as [|x rest].
  - exists (diff t). reflexivity.
  - exists (diff_from (last rest x) t). simpl. now rewrite diff_from_app.
Qed.

Lemma rolling_mean_prefix (p m : nat) (xs tail : list fval) (i : nat) :
  (i < length xs)%nat ->
  nth_error (rolling_mean p m (xs ++ tail)) i
  = nth_error (rolling_mean p m xs) i.
Proof.
  intro H.
  rewrite !nth_error_rolling_mean by (try rewrite length_app; lia).
  unfold window. rewrite firstn_app.
  replace (S i - length xs)%nat with 0%nat by lia.
  simpl firstn. now rewrite app_nil_r.
Qed.

Lemma rsi_ma_up_prefix (s t : list Q) (p i : nat) :
  (i < length s)%nat ->
  nth_error (rsi_ma_up (s ++ t) p) i = nth_error (rsi_ma_up s p) i.
Proof.
  intro H. unfold rsi_ma_up.
  destruct (diff_app_prefix s t) as (tail & ->).
  rewrite map_app. apply rolling_mean_prefix.
  now rewrite length_map, length_diff.
Qed.

Lemma rsi_ma_down_prefix (s t : list Q) (p i : nat) :
  (i < length s)%nat ->
  nth_error (rsi_ma_down (s ++ t) p) i = nth_error (rsi_ma_down s p) i.
Proof.
  intro H. unfold rsi_ma_down.
  destruct (diff_app_prefix s t) as (tail & ->).
  rewrite map_app. apply rolling_mean_prefix.
  now rewrite length_map, length_diff.
Qed.

Lemma compute_rsi_prefix (s t : list Q) (p i : nat) :
  (i < length s)%nat ->
  nth_error (compute_rsi (s ++ t) p) i = nth_error (compute_rsi s p) i.
Proof.
  intro H.
  destruct (nth_error_defined (rsi_ma_up s p) i) as (g & Eg).
  { now rewrite length_rsi_ma_up. }
  destruct (nth_error_defined (rsi_ma_down s p) i) as (l & El).
  { now rewrite length_rsi_ma_down. }
  rewrite (nth_error_compute_rsi s p i g l Eg El).
  apply nth_error_compute_rsi.
  - now rewrite rsi_ma_up_prefix.
  - now rewrite rsi_ma_down_prefix.
Qed.

Lemma ema_from_app (a prev : Q) (xs ys : list Q) :
  ema_from a prev (xs ++ ys)
  = ema_from a prev xs ++ ema_from a (last (ema_from a prev xs) prev) ys.
Proof.
  revert prev. induction xs as [|x xs IH]; intro prev; [reflexivity|].
  change (ema_from a prev ((x :: xs) ++ ys))
    with (((1 - a) * prev + a * x)
          :: ema_from a ((1 - a) * prev + a * x) (xs ++ ys)).
  rewrite IH.
  change (ema_from a prev (x :: xs))
    with (((1 - a) * prev + a * x)
          :: ema_from a ((1 - a) * prev + a * x) xs).
  rewrite last_cons_default. reflexivity.
Qed.

Lemma compute_ema_prefix (s t : list Q) (p i : nat) :
  (i < length s)%nat ->
  nth_error (compute_ema (s ++ t) p) i = nth_error (compute_ema s p) i.
Proof.
  intro H. destruct s as [|x rest]; [simpl in H; lia|].
  unfold compute_ema. cbv zeta.
  change ((x :: rest) ++ t) with (x :: (rest ++ t)). cbv iota.
  rewrite ema_from_app, app_comm_cons.
  apply nth_error_app1. simpl. rewrite length_ema_from. simpl in H. lia.
Qed.

(** ** Falling and rising series *)

Lemma falling_from_lt (x : Q) (xs : list Q) (y : Q) :
  falling_from x xs -> In y xs -> y < x.
Proof.
  revert x. induction xs as [|z xs IH]; intros x H Hin; [destruct Hin|].
  destruct H as [Hz H]. destruct Hin as [<-|Hin]; [exact Hz|].
  pose proof (IH z H Hin). lra.
Qed.

Lemma rising_from_lt (x : Q) (xs : list Q) (y : Q) :
  rising_from x xs -> In y xs -> x < y.
Proof.
  revert x. induction xs as [|z xs IH]; intros x H Hin; [destruct Hin|].
  destruct H as [Hz H]. destruct Hin as [<-|Hin]; [exact Hz|].
  pose proof (IH z H Hin). lra.
Qed.

Lemma strictly_falling_tl (x : Q) (xs : list Q) :
  strictly_falling (x :: xs) -> strictly_falling xs.
Proof. destruct xs; simpl; tauto. Qed.

Lemma strictly_rising_tl (x : Q) (xs : list Q) :
  strictly_rising (x :: xs) -> strictly_rising xs.
Proof. destruct xs; simpl; tauto. Qed.

Lemma strictly_falling_skipn (n : nat) (s : list Q) :
  strictly_falling s -> strictly_falling (skipn n s).
Proof.
  revert s. induction n as [|n IH]; intros s H; [exact H|].
  destruct s as [|x xs]; [exact H|].
  apply IH. now apply strictly_falling_tl with x.
Qed.

Lemma strictly_rising_skipn (n : nat) (s : list Q) :
  strictly_rising s -> strictly_rising (skipn n s).
Proof.
  revert s. induction n as [|n IH]; intros s H; [exact H|].
  destruct s as [|x xs]; [exact H|].
  apply IH. now apply strictly_rising_tl with x.
Qed.

(** ** Bounds on the average volume *)

Lemma Qnat_S (n : nat) : Qnat (S n) == Qnat n + 1.
Proof.
  unfold Qnat. rewrite Nat2Z.inj_succ. unfold Z.succ.
  now rewrite inject_Z_plus.
Qed.

Lemma Qsum_from_bounds (xs : list Q) (lo hi a : Q) :
  Forall (fun x => lo <= x <= hi) xs ->
  a + Qnat (length xs) * lo <= fold_left Qplus xs a /\
  fold_left Qplus xs a <= a + Qnat (length xs) * hi.
Proof.
  intro H. revert a. induction H as [|x xs [Hx1 Hx2] _ IH]; intro a.
  - simpl length. change (Qnat 0) with 0. simpl fold_left. split; lra.
  - simpl fold_left. simpl length. destruct (IH (a + x)) as [IH1 IH2].
    pose proof (Qnat_S (length xs)) as E.
    split.
    + rewrite E. lra.
    + rewrite E. lra.
Qed.

Lemma mean_bounds (xs : list Q) (lo hi : Q) :
  xs <> [] -> Forall (fun x => lo <= x <= hi) xs ->
  exists a, mean xs = Fin a /\ lo <= a /\ a <= hi.
Proof.
  intros Hne H. rewrite (mean_nonempty xs Hne).
  destruct (Qsum_from_bounds xs lo hi 0 H) as [H1 H2].
  change (fold_left Qplus xs 0) with (Qsum xs) in H1, H2.
  assert (Hn : 0 < Qnat (length xs)).
  { destruct xs; [congruence | apply Qnat_pos]. }
  eexists. split; [reflexivity|]. split.
  - apply Qle_shift_div_l; [exact Hn|]. lra.
  - apply Qle_shift_div_r; [exact Hn|]. lra.
Qed.

Lemma avg_vol_bounds (df : list candle) (lo hi : Q) :
  df <> [] -> Forall (fun c => lo <= volume c <= hi) df ->
  exists a, avg_vol df = Fin a /\ lo <= a /\ a <= hi.
Proof.
  intros Hne H. unfold avg_vol.
  assert (Hm : Forall (fun x => lo <= x <= hi) (map volume df)).
  { eapply Forall_map_impl; [|exact H]. auto. }
  destruct (20 <=? length df)%nat eqn:E.
  - apply Nat.leb_le in E. apply mean_bounds.
    + intro E0. apply (f_equal (@length Q)) in E0.
      unfold iloc_tail in E0. rewrite length_skipn, length_map in E0.
      simpl in E0. lia.
    + unfold iloc_tail. now apply Forall_skipn.
  - apply mean_bounds; [|exact Hm].
    destruct df; [congruence | discriminate].
Qed.

Lemma vol_ok_largest (df : list candle) (v : Q) :
  df <> [] -> Forall (fun c => 0 <= volume c <= v) df ->
  vol_ok df v = true.
Proof.
  intros Hne H. destruct (avg_vol_bounds df 0 v Hne H) as (a & Ea & H0 & H1).
  apply (vol_ok_iff df a v Ea). unfold VOLUME_MULTIPLIER. lra.
Qed.

(** ** Trend confirmation in one-directional markets *)

Lemma filter_all_true {A : Type} (f : A -> bool) (l : list A) :
  Forall (fun x => f x = true) l -> filter f l = l.
Proof.
  induction 1 as [|x l Hx _ IH]; simpl; [reflexivity|].
  now rewrite Hx, IH.
Qed.

Lemma last_In {A : Type} (l : list A) (d : A) : l <> [] -> In (last l d) l.
Proof.
  induction l as [|x l IH]; [congruence|]. intros _.
  destruct l as [|y l]; [left; reflexivity|].
  right. apply IH. discriminate.
Qed.

Lemma trend_down_in_falling_market (w : list candle) (k : Z) :
  (2 <= length w)%nat -> (k <= Z.of_nat (length w))%Z ->
  Forall (fun c => close c < open c) w ->
  strictly_falling (map close w) ->
  trend_confirmation w "down" k = Ok true.
Proof.
  intros Hl Hk Hb Hf. destruct w as [|c0 rest]; [simpl in Hl; lia|].
  rewrite trend_confirmation_down. f_equal. apply andb_true_iff. split.
  - apply Z.leb_le. unfold count_bearish. rewrite filter_all_true; [exact Hk|].
    eapply Forall_impl; [|exact Hb]. intros c Hc. now apply Qltb_lt.
  - apply Qltb_lt. simpl in Hf.
    apply (falling_from_lt (close c0) (map close rest)); [exact Hf|].
    apply in_map, last_In. destruct rest; [simpl in Hl; lia | discriminate].
Qed.

Lemma trend_up_in_rising_market (w : list candle) (k : Z) :
  (2 <= length w)%nat -> (k <= Z.of_nat (length w))%Z ->
  Forall (fun c => open c < close c) w ->
  strictly_rising (map close w) ->
  trend_confirmation w "up" k = Ok true.
Proof.
  intros Hl Hk Hb Hf. destruct w as [|c0 rest]; [simpl in Hl; lia|].
  rewrite trend_confirmation_up. f_equal. apply andb_true_iff. split.
  - apply Z.leb_le. unfold count_bullish. rewrite filter_all_true; [exact Hk|].
    eapply Forall_impl; [|exact Hb]. intros c Hc. now apply Qltb_lt.
  - apply Qltb_lt. simpl in Hf.
    apply (rising_from_lt (close c0) (map close rest)); [exact Hf|].
    apply in_map, last_In. destruct rest; [simpl in Hl; lia | discriminate].
Qed.

Lemma trend_confirmation_other (w : list candle) (d : string) (k : Z) :
  String.eqb d "down" = false ->
  trend_confirmation w d k = trend_confirmation w "up" k.
Proof.
  intro H. unfold trend_confirmation. rewrite H.
  change (String.eqb "up" "down") with false. reflexivity.
Qed.

Lemma count_bearish_le (w : list candle) :
  (count_bearish w <= Z.of_nat (length w))%Z.
Proof.
  unfold count_bearish. apply Nat2Z.inj_le, filter_length_le.
Qed.

Lemma count_bullish_le (w : list candle) :
  (count_bullish w <= Z.of_nat (length w))%Z.
Proof.
  unfold count_bullish. apply Nat2Z.inj_le, filter_length_le.
Qed.

(** ** Shape of a candle under transformations *)

Lemma Qmax_opp (a b : Q) : Qmax (- a) (- b) == - Qmin a b.
Proof.
  destruct (Qlt_le_dec a b) as [H|H].
  - rewrite (Q.min_l a b) by lra. rewrite (Q.max_l (- a) (- b)) by lra.
    reflexivity.
  - rewrite (Q.min_r a b) by lra. rewrite (Q.max_r (- a) (- b)) by lra.
    reflexivity.
Qed.

Lemma Qmin_opp (a b : Q) : Qmin (- a) (- b) == - Qmax a b.
Proof.
  destruct (Qlt_le_dec a b) as [H|H].
  - rewrite (Q.max_r a b) by lra. rewrite (Q.min_r (- a) (- b)) by lra.
    reflexivity.
  - rewrite (Q.max_l a b) by lra. rewrite (Q.min_l (- a) (- b)) by lra.
    reflexivity.
Qed.

Lemma body_mirror (c : candle) : body (mirror c) == body c.
Proof.
  unfold body, mirror. cbn [open close high low].
  setoid_replace (- close c - - open c) with (- (close c - open c)) by ring.
  apply Qabs_opp.
Qed.

Lemma upper_shadow_mirror (c : candle) :
  upper_shadow (mirror c) == lower_shadow c.
Proof.
  unfold upper_shadow, lower_shadow, mirror. cbn [open close high low].
  rewrite Qmax_opp. ring.
Qed.

Lemma lower_shadow_mirror (c : candle) :
  lower_shadow (mirror c) == upper_shadow c.
Proof.
  unfold upper_shadow, lower_shadow, mirror. cbn [open close high low].
  rewrite Qmin_opp. ring.
Qed.

(** * Further theorems *)

(** X1.  With a span of at least 1, [compute_ema] returns one value per
    row, and every value lies between any two bounds that enclose all the
    prices of the series: the average never leaves the range of the
    prices. *)
Theorem compute_ema_bounded (series : list Q) (period : nat) (lo hi : Q) :
  (1 <= period)%nat ->
  Forall (fun x => lo <= x <= hi) series ->
  length (compute_ema series period) = length series /\
  Forall (fun y => lo <= y <= hi) (compute_ema series period).
Proof.
  intros Hp Hs. split; [apply length_compute_ema|].
  now apply compute_ema_in_range.
Qed.

Lemma compute_ema_bounded_witness :
  length (compute_ema [3; 1; 2] 20) = 3%nat /\
  Forall (fun y => 1 <= y <= 3) (compute_ema [3; 1; 2] 20).
Proof.
  apply (compute_ema_bounded [3; 1; 2] 20 1 3); [lia|].
  repeat constructor; discriminate.
Defined.

(** X2.  On a series whose prices all equal c, every value of the
    exponential moving average equals c, for every span of at least 1. *)
Theorem compute_ema_constant (series : list Q) (period : nat) (c : Q) :
  (1 <= period)%nat ->
  Forall (fun x => x == c) series ->
  Forall (fun y => y == c) (compute_ema series period).
Proof.
  intros Hp Hs.
  assert (H : Forall (fun y => c <= y <= c) (compute_ema series period)).
  { apply compute_ema_in_range; [exact Hp|].
    eapply Forall_impl; [|exact Hs]. intros x Hx. simpl in Hx. lra. }
  eapply Forall_impl; [|exact H]. intros y Hy. simpl in Hy. lra.
Qed.

Lemma compute_ema_constant_witness :
  Forall (fun y => y == 100) (compute_ema flat_series EMA_SLOW).
Proof.
  apply (compute_ema_constant flat_series EMA_SLOW 100).
  - unfold EMA_SLOW. lia.
  - unfold flat_series. simpl. repeat constructor.
Defined.

(** X3.  On strictly falling prices, from the second row on, the average
    of the shorter span is strictly below the average of the longer span
    at every row: the regime condition of the hammer holds. *)
Theorem ema_fast_below_slow_when_falling (series : list Q)
    (p_fast p_slow i : nat) (ef es : Q) :
  (1 <= p_fast < p_slow)%nat -> strictly_falling series -> (1 <= i)%nat ->
  nth_error (compute_ema series p_fast) i = Some ef ->
  nth_error (compute_ema series p_slow) i = Some es ->
  ef < es.
Proof. apply compute_ema_falling_order. Qed.

Lemma ema_fast_below_slow_when_falling_witness :
  (1 - 2 / (Qnat 1 + 1)) * 3 + 2 / (Qnat 1 + 1) * 2
  < (1 - 2 / (Qnat 2 + 1)) * 3 + 2 / (Qnat 2 + 1) * 2.
Proof.
  apply (ema_fast_below_slow_when_falling [3; 2; 1] 1 2 1).
  - lia.
  - simpl. repeat split; reflexivity.
  - lia.
  - reflexivity.
  - reflexivity.
Defined.

(** X4.  On strictly rising prices, from the second row on, the average of
    the shorter span is strictly above the average of the longer span:
    the regime condition of the shooting star holds. *)
Theorem ema_fast_above_slow_when_rising (series : list Q)
    (p_fast p_slow i : nat) (ef es : Q) :
  (1 <= p_fast < p_slow)%nat -> strictly_rising series -> (1 <= i)%nat ->
  nth_error (compute_ema series p_fast) i = Some ef ->
  nth_error (compute_ema series p_slow) i = Some es ->
  es < ef.
Proof. apply compute_ema_rising_order. Qed.

Lemma ema_fast_above_slow_when_rising_witness :
  (1 - 2 / (Qnat 2 + 1)) * 1 + 2 / (Qnat 2 + 1) * 2
  < (1 - 2 / (Qnat 1 + 1)) * 1 + 2 / (Qnat 1 + 1) * 2.
Proof.
  apply (ema_fast_above_slow_when_rising [1; 2; 3] 1 2 1).
  - lia.
  - simpl. repeat split; reflexivity.
  - lia.
  - reflexivity.
  - reflexivity.
Defined.

(** X5.  [compute_rsi] returns one value per row, and the value of every
    row before row [period] is NaN: the first [period] rows are the
    warm-up, and a series of at most [period] rows has no RSI at all. *)
Theorem rsi_warm_up_is_nan (series : list Q) (period i : nat) :
  (i < period)%nat -> (i < length series)%nat ->
  length (compute_rsi series period) = length series /\
  nth_error (compute_rsi series period) i = Some NaN.
Proof.
  intros Hp Hi. split; [apply length_compute_rsi|].
  now apply compute_rsi_cold.
Qed.

Lemma rsi_warm_up_is_nan_witness :
  length (compute_rsi (map close scenario_df) RSI_PERIOD)
  = length (map close scenario_df) /\
  nth_error (compute_rsi (map close scenario_df) RSI_PERIOD) 13 = Some NaN.
Proof.
  apply (rsi_warm_up_is_nan (map close scenario_df) RSI_PERIOD 13).
  - unfold RSI_PERIOD. lia.
  - vm_compute. lia.
Defined.

(** X6.  On strictly falling prices the RSI of every row after the warm-up
    is the number 0. *)
Theorem rsi_of_falling_prices (series : list Q) (period i : nat) :
  (1 <= period <= i)%nat -> (i < length series)%nat ->
  strictly_falling series ->
  exists r,
    nth_error (compute_rsi series period) i = Some (Fin r) /\ r == 0.
Proof. apply compute_rsi_falling. Qed.

Lemma rsi_of_falling_prices_witness :
  exists r,
    nth_error (compute_rsi [5; 4; 3; 2] 2) 3 = Some (Fin r) /\ r == 0.
Proof.
  apply (rsi_of_falling_prices [5; 4; 3; 2] 2 3).
  - lia.
  - simpl. lia.
  - simpl. repeat split; reflexivity.
Defined.

(** X7.  On strictly rising prices the RSI of every row after the warm-up
    is the number 100: the loss average is zero and the division by it
    saturates. *)
Theorem rsi_of_rising_prices (series : list Q) (period i : nat) :
  (1 <= period <= i)%nat -> (i < length series)%nat ->
  strictly_rising series ->
  exists r,
    nth_error (compute_rsi series period) i = Some (Fin r) /\ r == 100.
Proof. apply compute_rsi_rising. Qed.

Lemma rsi_of_rising_prices_witness :
  exists r,
    nth_error (compute_rsi [2; 3; 4; 5] 2) 3 = Some (Fin r) /\ r == 100.
Proof.
  apply (rsi_of_rising_prices [2; 3; 4; 5] 2 3).
  - lia.
  - simpl. lia.
  - simpl. repeat split; reflexivity.
Defined.

(** X8.  A window cannot confirm both directions: when
    [trend_confirmation] answers true for "down", it answers false for
    "up" on the same window, whatever the required counts. *)
Theorem trend_directions_exclusive (w : list candle) (k k' : Z) :
  trend_confirmation w "down" k = Ok true ->
  trend_confirmation w "up" k' = Ok false.
Proof.
  destruct w as [|c0 rest].
  - rewrite trend_confirmation_nil. discriminate.
  - rewrite trend_confirmation_down, trend_confirmation_up.
    intro H. injection H as H. apply andb_true_iff in H as [_ H].
    apply Qltb_lt in H. f_equal. apply andb_false_iff. right.
    apply Qltb_false_le. lra.
Qed.

Lemma trend_directions_exclusive_witness :
  trend_confirmation (trend_candles scenario_df) "up" 0 = Ok false.
Proof.
  apply (trend_directions_exclusive (trend_candles scenario_df) 3 0).
  vm_compute. reflexivity.
Defined.

(** X9.  When the required count exceeds the number of candles of a
    non-empty window, [trend_confirmation] answers false for every
    direction. *)
Theorem trend_count_unsatisfiable (w : list candle) (d : string) (k : Z) :
  w <> [] -> (Z.of_nat (length w) < k)%Z ->
  trend_confirmation w d k = Ok false.
Proof.
  intros Hne Hk. destruct w as [|c0 rest]; [congruence|].
  destruct (String.eqb d "down") eqn:E.
  - apply String.eqb_eq in E. subst d. rewrite trend_confirmation_down.
    pose proof (count_bearish_le (c0 :: rest)) as Hc.
    assert (E : (k <=? count_bearish (c0 :: rest))%Z = false)
      by (apply Z.leb_gt; lia).
    now rewrite E.
  - rewrite (trend_confirmation_other _ d k E), trend_confirmation_up.
    pose proof (count_bullish_le (c0 :: rest)) as Hc.
    assert (E' : (k <=? count_bullish (c0 :: rest))%Z = false)
      by (apply Z.leb_gt; lia).
    now rewrite E'.
Qed.

Lemma trend_count_unsatisfiable_witness :
  trend_confirmation (trend_candles scenario_df) "down" 6 = Ok false.
Proof.
  apply (trend_count_unsatisfiable (trend_candles scenario_df) "down" 6).
  - discriminate.
  - vm_compute. reflexivity.
Defined.

(** X10.  [trend_confirmation] raises IndexError exactly on the empty
    window, and every direction other than "down" is handled as "up". *)
Theorem trend_confirmation_edges (w : list candle) (d : string) (k : Z) :
  (trend_confirmation w d k = Raise IndexError <-> w = []) /\
  (d <> "down"%string ->
   trend_confirmation w d k = trend_confirmation w "up" k).
Proof.
  split.
  - split.
    + intro H. destruct w as [|c0 rest]; [reflexivity|].
      destruct (trend_confirmation_returns (c0 :: rest) d k) as (b & E);
        [discriminate|]. congruence.
    + intros ->. apply trend_confirmation_nil.
  - intro Hd. apply trend_confirmation_other.
    destruct (String.eqb d "down") eqn:E; trivial.
    apply String.eqb_eq in E. contradiction.
Qed.

Lemma trend_confirmation_edges_witness :
  trend_confirmation (trend_candles scenario_df) "sideways" 3
  = trend_confirmation (trend_candles scenario_df) "up" 3.
Proof.
  apply (trend_confirmation_edges (trend_candles scenario_df) "sideways" 3).
  discriminate.
Defined.

(** X11.  The two classifiers are mirror images: a candle is a shooting
    star exactly when the candle turned upside down (prices negated, high
    and low exchanged) is a hammer, and conversely. *)
Theorem classifiers_mirror (c : candle) :
  is_shooting_star_candle (mirror c) = is_hammer_candle c /\
  is_hammer_candle (mirror c) = is_shooting_star_candle c.
Proof.
  split; apply Bool.eq_iff_eq_true.
  - rewrite is_shooting_star_candle_iff, is_hammer_candle_iff.
    rewrite body_mirror, upper_shadow_mirror, lower_shadow_mirror.
    reflexivity.
  - rewrite is_shooting_star_candle_iff, is_hammer_candle_iff.
    rewrite body_mirror, upper_shadow_mirror, lower_shadow_mirror.
    reflexivity.
Qed.

(** X13.  When no volume of the series is negative and none exceeds the
    volume of its last row, the volume filter passes for the last row. *)
Theorem volume_filter_passes_for_largest (rest : list candle) (pc : candle) :
  Forall (fun c => 0 <= volume c <= volume pc) (rest ++ [pc]) ->
  vol_ok (rest ++ [pc]) (volume pc) = true.
Proof.
  intro H. apply vol_ok_largest; [|exact H].
  destruct rest; discriminate.
Qed.

Lemma volume_filter_passes_for_largest_witness :
  vol_ok (removelast scenario_df ++ [hammer_candle]) (volume hammer_candle)
  = true.
Proof.
  apply (volume_filter_passes_for_largest (removelast scenario_df)
           hammer_candle).
  vm_compute. repeat constructor; discriminate.
Defined.

(** X14.  Every signal [analyze_pair] returns is built from the last row
    of a series of at least 16 rows: its time, price and last volume are
    those of that row; its RSI is a number (never NaN), at most 40 for a
    HAMMER / LONG signal and at least 60 for a SHOOTING_STAR / SHORT one;
    its average volume is the number the volume filter used. *)
Theorem signal_metrics (df : list candle) (signals : list signal)
    (s : signal) :
  analyze_pair (Ok df) = Ok signals -> In s signals ->
  exists rest pc q avg,
    df = rest ++ [pc] /\ (16 <= length df)%nat /\
    pattern_time s = ts pc /\ price s = close pc /\
    meta_last_vol s = volume pc /\
    meta_rsi s = Fin q /\ 0 <= q /\ q <= 100 /\
    meta_avg_vol s = Fin avg /\ avg_vol df = Fin avg /\
    ((typ s = "HAMMER"%string /\ direction s = "LONG"%string /\ q <= 40)
     \/
     (typ s = "SHOOTING_STAR"%string /\ direction s = "SHORT"%string /\
      60 <= q)).
Proof.
  intros Ha Hin.
  destruct (Nat.lt_ge_cases (length df) 16) as [Hs|Hl].
  { rewrite (analyze_pair_cold df Hs) in Ha. injection Ha as <-.
    destruct Hin. }
  destruct (split_last6 df ltac:(lia)) as (pre & w & pc & Edf & Hw).
  destruct (analyze_pair_eval pre w pc Hw)
    as (ef & es & r & td & tu & _ & _ & Er & _ & _ & Ea').
  rewrite <- Edf in Er, Ea'. rewrite Ea' in Ha. injection Ha as <-.
  destruct (avg_vol_fin df) as (a & Eavg).
  { intro E. rewrite E in Hl. simpl in Hl. lia. }
  assert (Hr : r = NaN \/ in_0_100 r).
  { destruct (compute_rsi_entry (map close df) RSI_PERIOD (length df - 2))
      as (v & Ev & Hv).
    - unfold RSI_PERIOD. lia.
    - rewrite length_map. lia.
    - rewrite Er in Ev. injection Ev as <-. exact Hv. }
  exists (pre ++ w), pc.
  apply in_app_or in Hin. destruct Hin as [Hin|Hin].
  - destruct (is_hammer_candle pc); [|destruct Hin].
    match type of Hin with
    | In _ (if ?cond then _ else _) => destruct cond eqn:Ec
    end; [|destruct Hin].
    destruct Hin as [<-|[]].
    apply andb_true_iff in Ec as [_ Hrsi].
    change (fle r (Fin RSI_OVERSOLD) = true) in Hrsi.
    apply (fle_fin_iff r RSI_OVERSOLD Hr) in Hrsi.
    destruct Hrsi as (q & -> & Hq).
    destruct Hr as [Hr|(q' & E & H0 & H1)]; [discriminate|].
    injection E as <-.
    exists q, a. rewrite Eavg. unfold RSI_OVERSOLD in Hq.
    repeat split; trivial; [now rewrite <- app_assoc | left; auto].
  - destruct (is_shooting_star_candle pc); [|destruct Hin].
    match type of Hin with
    | In _ (if ?cond then _ else _) => destruct cond eqn:Ec
    end; [|destruct Hin].
    destruct Hin as [<-|[]].
    apply andb_true_iff in Ec as [_ Hrsi].
    change (fge r (Fin RSI_OVERBOUGHT) = true) in Hrsi.
    apply (fge_fin_iff r RSI_OVERBOUGHT Hr) in Hrsi.
    destruct Hrsi as (q & -> & Hq).
    destruct Hr as [Hr|(q' & E & H0 & H1)]; [discriminate|].
    injection E as <-.
    exists q, a. rewrite Eavg. unfold RSI_OVERBOUGHT in Hq.
    repeat split; trivial; [now rewrite <- app_assoc | right; auto].
Qed.

Lemma seconds_to_next_15min_cases (t : Z) :
  ((t mod 900 = 0)%Z /\ seconds_to_next_15min t = 0%Z) \/
  ((t mod 900 <> 0)%Z /\
   seconds_to_next_15min t = (900 - t mod 900)%Z).
Proof.
  unfold seconds_to_next_15min. change (15 * 60)%Z with 900%Z. cbv zeta.
  destruct (t mod 900 =? 0)%Z eqn:E.
  - apply Z.eqb_eq in E. left. auto.
  - apply Z.eqb_neq in E. right. auto.
Qed.

(** X15.  The sleep at the end of a cycle lasts between 2 and 901 seconds
    and ends one second after a 900-second boundary; the seconds to the
    next boundary repeat every 900 seconds; and at start-up the program
    either is on a boundary and does not sleep at all, or sleeps between
    2 and 900 seconds, again until one second after a boundary. *)
Theorem wake_up_alignment (t : Z) :
  (2 <= cycle_sleep t <= 901)%Z /\
  ((t + cycle_sleep t) mod 900 = 1)%Z /\
  seconds_to_next_15min (t + 900) = seconds_to_next_15min t /\
  ((startup_sleep t = None /\ (t mod 900 = 0)%Z)
   \/
   (exists d, startup_sleep t = Some d /\ (2 <= d <= 900)%Z /\
              ((t + d) mod 900 = 1)%Z)).
Proof.
  assert (Hper : seconds_to_next_15min (t + 900)
                 = seconds_to_next_15min t).
  { unfold seconds_to_next_15min. change (15 * 60)%Z with 900%Z.
    replace (t + 900)%Z with (t + 1 * 900)%Z by lia.
    now rewrite Z.mod_add by lia. }
  pose proof (Z.mod_pos_bound t 900 ltac:(lia)) as Hb.
  pose proof (Z.div_mod t 900 ltac:(lia)) as Hd.
  destruct (seconds_to_next_15min_cases t) as [[E Es]|[E Es]];
    unfold cycle_sleep, startup_sleep; rewrite Es.
  - change (0 =? 0)%Z with true. cbv iota zeta beta.
    change (negb true) with false. cbv iota.
    change (15 * 60 + 1)%Z with 901%Z.
    split; [lia|]. split.
    + replace (t + 901)%Z with (1 + (t / 900 + 1) * 900)%Z by lia.
      now rewrite Z.mod_add by lia.
    + split; [congruence|]. left. auto.
  - assert (Hs : (900 - t mod 900 =? 0)%Z = false) by (apply Z.eqb_neq; lia).
    cbv zeta. rewrite Hs. change (negb false) with true. cbv iota.
    assert (Hm : ((t + (900 - t mod 900 + 1)) mod 900 = 1)%Z).
    { replace (t + (900 - t mod 900 + 1))%Z
        with (1 + (t / 900 + 1) * 900)%Z by lia.
      now rewrite Z.mod_add by lia. }
    split; [lia|]. split; [exact Hm|]. split; [congruence|].
    right. eexists. split; [reflexivity|]. split; [lia | exact Hm].
Qed.

Lemma signal_metrics_witness :
  let s := hammer_signal hammer_candle (Fin (0 # 980)) (Fin (170 # 17)) in
  exists rest pc q avg,
    scenario_df = rest ++ [pc] /\ (16 <= length scenario_df)%nat /\
    pattern_time s = ts pc /\ price s = close pc /\
    meta_last_vol s = volume pc /\
    meta_rsi s = Fin q /\ 0 <= q /\ q <= 100 /\
    meta_avg_vol s = Fin avg /\ avg_vol scenario_df = Fin avg /\
    ((typ s = "HAMMER"%string /\ direction s = "LONG"%string /\ q <= 40)
     \/
     (typ s = "SHOOTING_STAR"%string /\ direction s = "SHORT"%string /\
      60 <= q)).
Proof.
  intro s.
  apply (signal_metrics scenario_df [s] s).
  - vm_compute. reflexivity.
  - left. reflexivity.
Defined.

(** ** Signals in one-directional markets *)

(* The rows of a series of at least 15 rows followed by a pattern candle,
   as [analyze_pair] reads them. *)
Lemma analyze_pair_after_market (pre : list candle) (pc : candle) :
  (15 <= length pre)%nat ->
  exists w ef es r td tu,
    (exists older, pre = older ++ w) /\ length w = 5%nat /\
    nth_error (compute_ema (map close pre) EMA_FAST) (length pre - 1)
    = Some ef /\
    nth_error (compute_ema (map close pre) EMA_SLOW) (length pre - 1)
    = Some es /\
    nth_error (compute_rsi (map close pre) RSI_PERIOD) (length pre - 1)
    = Some r /\
    trend_confirmation w "down" 3 = Ok td /\
    trend_confirmation w "up" 3 = Ok tu /\
    analyze_pair (Ok (pre ++ [pc])) =
    Ok ((if is_hammer_candle pc then
           if td && Qltb ef es && vol_ok (pre ++ [pc]) (volume pc)
              && fle r (Fin RSI_OVERSOLD)
           then [hammer_signal pc r (avg_vol (pre ++ [pc]))] else []
         else [])
        ++
        (if is_shooting_star_candle pc then
           if tu && Qltb es ef && vol_ok (pre ++ [pc]) (volume pc)
              && fge r (Fin RSI_OVERBOUGHT)
           then [star_signal pc r (avg_vol (pre ++ [pc]))] else []
         else [])).
Proof.
  intro Hl.
  set (older := firstn (length pre - 5) pre).
  set (w := skipn (length pre - 5) pre).
  assert (Epre : pre = older ++ w) by (symmetry; apply firstn_skipn).
  assert (Hw : length w = 5%nat) by (unfold w; rewrite length_skipn; lia).
  destruct (analyze_pair_eval older w pc Hw)
    as (ef & es & r & td & tu & Ef & Es & Er & Etd & Etu & Ea).
  rewrite app_assoc, <- Epre in Ef, Es, Er, Ea.
  assert (Hi : (length (pre ++ [pc]) - 2 = length pre - 1)%nat).
  { rewrite length_app. simpl. lia. }
  rewrite Hi, map_app in Ef, Es, Er.
  rewrite compute_ema_prefix in Ef, Es by (rewrite length_map; lia).
  rewrite compute_rsi_prefix in Er by (rewrite length_map; lia).
  exists w, ef, es, r, td, tu.
  split; [eauto|]. repeat (split; [assumption|]). exact Ea.
Qed.

(** X16.  After a falling market of at least 15 rows (every candle
    bearish, closes strictly falling), a hammer whose volume is the
    largest of the series gives exactly one signal: HAMMER / LONG at the
    close of the hammer, with an RSI of 0. *)
Theorem hammer_after_falling_market (pre : list candle) (pc : candle) :
  (15 <= length pre)%nat ->
  Forall (fun c => close c < open c) pre ->
  strictly_falling (map close pre) ->
  is_hammer_candle pc = true ->
  Forall (fun c => 0 <= volume c <= volume pc) (pre ++ [pc]) ->
  exists r avg,
    analyze_pair (Ok (pre ++ [pc]))
    = Ok [hammer_signal pc (Fin r) (Fin avg)] /\ r == 0.
Proof.
  intros Hl Hb Hf Hh Hv.
  destruct (analyze_pair_after_market pre pc Hl)
    as (w & ef & es & r & td & tu & (older & Epre) & Hw
        & Ef & Es & Er & Etd & Etu & Ea).
  assert (Hew : w = skipn (length older) pre).
  { rewrite Epre, skipn_app, Nat.sub_diag, skipn_all. reflexivity. }
  assert (Htd : td = true).
  { rewrite trend_down_in_falling_market in Etd; try lia.
    - now injection Etd.
    - rewrite Hew. now apply Forall_skipn.
    - rewrite Hew, <- skipn_map. now apply strictly_falling_skipn. }
  assert (Hema : ef < es).
  { apply (compute_ema_falling_order (map close pre) EMA_FAST EMA_SLOW
             (length pre - 1) ef es); trivial.
    - unfold EMA_FAST, EMA_SLOW. lia.
    - lia. }
  destruct (compute_rsi_falling (map close pre) RSI_PERIOD (length pre - 1))
    as (r0 & Er0 & Hr0); trivial.
  { unfold RSI_PERIOD. lia. }
  { rewrite length_map. lia. }
  rewrite Er in Er0. injection Er0 as ->.
  destruct (avg_vol_fin (pre ++ [pc])) as (a & Eavg).
  { destruct pre; discriminate. }
  exists r0, a. split; [|exact Hr0].
  rewrite Ea, Hh, Htd.
  apply Qltb_lt in Hema. rewrite Hema.
  rewrite vol_ok_largest; [|destruct pre; discriminate | exact Hv].
  assert (Hrsi : fle (Fin r0) (Fin RSI_OVERSOLD) = true).
  { simpl. apply Qle_bool_iff. unfold RSI_OVERSOLD. lra. }
  rewrite Hrsi. simpl andb. cbv iota.
  pose proof (classifiers_exclusive pc) as Hx. rewrite Hh in Hx.
  simpl in Hx. rewrite Hx, Eavg. reflexivity.
Qed.

Lemma hammer_after_falling_market_witness :
  exists r avg,
    analyze_pair (Ok (removelast scenario_df ++ [hammer_candle]))
    = Ok [hammer_signal hammer_candle (Fin r) (Fin avg)] /\ r == 0.
Proof.
  apply (hammer_after_falling_market (removelast scenario_df) hammer_candle).
  - vm_compute. lia.
  - vm_compute. repeat constructor.
  - vm_compute. repeat split; reflexivity.
  - reflexivity.
  - vm_compute. repeat constructor; discriminate.
Defined.

(** X17.  After a rising market of at least 15 rows (every candle
    bullish, closes strictly rising), a shooting star whose volume is the
    largest of the series gives exactly one signal: SHOOTING_STAR / SHORT
    at the close of the star, with an RSI of 100. *)
Theorem star_after_rising_market (pre : list candle) (pc : candle) :
  (15 <= length pre)%nat ->
  Forall (fun c => open c < close c) pre ->
  strictly_rising (map close pre) ->
  is_shooting_star_candle pc = true ->
  Forall (fun c => 0 <= volume c <= volume pc) (pre ++ [pc]) ->
  exists r avg,
    analyze_pair (Ok (pre ++ [pc]))
    = Ok [star_signal pc (Fin r) (Fin avg)] /\ r == 100.
Proof.
  intros Hl Hb Hf Hh Hv.
  destruct (analyze_pair_after_market pre pc Hl)
    as (w & ef & es & r & td & tu & (older & Epre) & Hw
        & Ef & Es & Er & Etd & Etu & Ea).
  assert (Hew : w = skipn (length older) pre).
  { rewrite Epre, skipn_app, Nat.sub_diag, skipn_all. reflexivity. }
  assert (Htu : tu = true).
  { rewrite trend_up_in_rising_market in Etu; try lia.
    - now injection Etu.
    - rewrite Hew. now apply Forall_skipn.
    - rewrite Hew, <- skipn_map. now apply strictly_rising_skipn. }
  assert (Hema : es < ef).
  { apply (compute_ema_rising_order (map close pre) EMA_FAST EMA_SLOW
             (length pre - 1) ef es); trivial.
    - unfold EMA_FAST, EMA_SLOW. lia.
    - lia. }
  destruct (compute_rsi_rising (map close pre) RSI_PERIOD (length pre - 1))
    as (r0 & Er0 & Hr0); trivial.
  { unfold RSI_PERIOD. lia. }
  { rewrite length_map. lia. }
  rewrite Er in Er0. injection Er0 as ->.
  destruct (avg_vol_fin (pre ++ [pc])) as (a & Eavg).
  { destruct pre; discriminate. }
  exists r0, a. split; [|exact Hr0].
  rewrite Ea, Hh, Htu.
  apply Qltb_lt in Hema. rewrite Hema.
  rewrite vol_ok_largest; [|destruct pre; discriminate | exact Hv].
  assert (Hrsi : fge (Fin r0) (Fin RSI_OVERBOUGHT) = true).
  { unfold fge. simpl. apply Qle_bool_iff. unfold RSI_OVERBOUGHT. lra. }
  rewrite Hrsi. simpl andb. cbv iota.
  pose proof (classifiers_exclusive pc) as Hx. rewrite Hh in Hx.
  rewrite andb_true_r in Hx. rewrite Hx, Eavg. reflexivity.
Qed.

Lemma star_after_rising_market_witness :
  exists r avg,
    analyze_pair (Ok (rising_market ++ [star_candle]))
    = Ok [star_signal star_candle (Fin r) (Fin avg)] /\ r == 100.
Proof.
  apply (star_after_rising_market rising_market star_candle).
  - vm_compute. lia.
  - vm_compute. repeat constructor.
  - vm_compute. repeat split; reflexivity.
  - reflexivity.
  - vm_compute. repeat constructor; discriminate.
Defined.

(** X18.  A hammer has a body, a low strictly below both open and close,
    and a lower shadow more than three times its upper shadow; a shooting
    star has a body, a high strictly above both open and close, and an
    upper shadow more than three times its lower shadow. *)
Theorem classifier_geometry (c : candle) :
  (is_hammer_candle c = true ->
   0 < body c /\ low c < Qmin (open c) (close c) /\
   3 * upper_shadow c < lower_shadow c) /\
  (is_shooting_star_candle c = true ->
   0 < body c /\ Qmax (open c) (close c) < high c /\
   3 * lower_shadow c < upper_shadow c).
Proof.
  pose proof (body_nonneg c) as Hn. split; intro H.
  - apply is_hammer_candle_iff in H. destruct H as (Hb & H1 & H2).
    assert (Hp : 0 < body c).
    { destruct (Q_zero_or_pos (body c) Hn) as [Z|P]; [contradiction|exact P]. }
    unfold lower_shadow, upper_shadow in *. repeat split; lra.
  - apply is_shooting_star_candle_iff in H. destruct H as (Hb & H1 & H2).
    assert (Hp : 0 < body c).
    { destruct (Q_zero_or_pos (body c) Hn) as [Z|P]; [contradiction|exact P]. }
    unfold lower_shadow, upper_shadow in *. repeat split; lra.
Qed.

Lemma classifier_geometry_witness :
  0 < body hammer_candle /\
  low hammer_candle < Qmin (open hammer_candle) (close hammer_candle) /\
  3 * upper_shadow hammer_candle < lower_shadow hammer_candle.
Proof.
  apply (classifier_geometry hammer_candle). reflexivity.
Defined.

(** * The decisions in IEEE double arithmetic *)

Lemma nth_error_last {A : Type} (c0 : A) (rest : list A) :
  nth_error (c0 :: rest) (length rest) = Some (last rest c0).
Proof.
  revert c0. induction rest as [|c1 rest IH]; intro c0.
  - reflexivity.
  - change (nth_error (c1 :: rest) (length rest) = Some (last (c1 :: rest) c0)).
    rewrite IH, last_cons_default. reflexivity.
Qed.

Lemma py_index_map_last {A B : Type} (f : A -> B) (c0 : A) (rest : list A) :
  py_index (map f (c0 :: rest)) (-1) = Ok (f (last rest c0)).
Proof.
  apply (py_index_neg _ 1).
  - simpl. lia.
  - rewrite length_map, nth_error_map.
    replace (length (c0 :: rest) - 1)%nat with (length rest) by (simpl; lia).
    now rewrite nth_error_last.
Qed.

Lemma f64_trend_confirmation_returns (w : list F64.candle) (d : string)
    (k : Z) :
  w <> [] -> exists b, F64.trend_confirmation w d k = Ok b.
Proof.
  destruct w as [|c0 rest]; [congruence|]. intros _.
  unfold F64.trend_confirmation.
  destruct (String.eqb d "down"); cbv zeta;
    rewrite py_index_map_last;
    change (map F64.close (c0 :: rest))
      with (F64.close c0 :: map F64.close rest);
    unfold bind at 1; rewrite py_index_first; eexists; reflexivity.
Qed.

Lemma f64_trend_candles_app (pre w : list F64.candle) (pc : F64.candle) :
  length w = 5%nat -> F64.trend_candles (pre ++ w ++ [pc]) = w.
Proof.
  intro H. unfold F64.trend_candles.
  rewrite iloc_tail_app by (rewrite length_app, H; reflexivity).
  rewrite firstn_app, H, Nat.sub_diag.
  rewrite firstn_all2 by lia. apply app_nil_r.
Qed.

Lemma f64_pattern_candle_app (pre w : list F64.candle) (pc : F64.candle) :
  length w = 5%nat -> F64.pattern_candle (pre ++ w ++ [pc]) = Ok pc.
Proof.
  intro H. unfold F64.pattern_candle.
  rewrite iloc_tail_app by (rewrite length_app, H; reflexivity).
  apply py_index_last.
Qed.

Lemma f64_length_diff_from (prev : PrimFloat.float)
    (xs : list PrimFloat.float) :
  length (F64.diff_from prev xs) = length xs.
Proof.
  revert prev. induction xs as [|x xs IH]; intro prev; simpl; auto.
Qed.

Lemma f64_length_diff (series : list PrimFloat.float) :
  length (F64.diff series) = length series.
Proof.
  destruct series; simpl; [reflexivity|]. now rewrite f64_length_diff_from.
Qed.

Lemma f64_length_compute_rsi (pd : F64.pandas)
    (series : list PrimFloat.float) (p : nat) :
  F64.returns_columns pd ->
  length (F64.compute_rsi pd series p) = length series.
Proof.
  intros [Hr _]. unfold F64.compute_rsi. cbv zeta.
  rewrite length_map, length_zip_with; rewrite !Hr, !length_map;
    rewrite ?f64_length_diff; reflexivity.
Qed.

Lemma f64_length_compute_ema (pd : F64.pandas)
    (series : list PrimFloat.float) (p : nat) :
  F64.returns_columns pd ->
  length (F64.compute_ema pd series p) = length series.
Proof. intros [_ He]. apply He. Qed.

(* On a series of at least six rows the double model of [analyze_pair]
   returns normally; its result is decided by the last row, the five rows
   before it and the indicator values at the row before the last. *)
Lemma f64_analyze_pair_eval (pd : F64.pandas) (pre w : list F64.candle)
    (pc : F64.candle) :
  F64.returns_columns pd -> length w = 5%nat ->
  let df := pre ++ w ++ [pc] in
  exists ef es r td tu,
    nth_error (F64.compute_ema pd (map F64.close df) F64.EMA_FAST)
      (length df - 2) = Some ef /\
    nth_error (F64.compute_ema pd (map F64.close df) F64.EMA_SLOW)
      (length df - 2) = Some es /\
    nth_error (F64.compute_rsi pd (map F64.close df) F64.RSI_PERIOD)
      (length df - 2) = Some r /\
    F64.trend_confirmation w "down" 3 = Ok td /\
    F64.trend_confirmation w "up" 3 = Ok tu /\
    F64.analyze_pair pd (Ok df) =
    Ok ((if F64.is_hammer_candle pc then
           if td && PrimFloat.ltb ef es && F64.vol_ok pd df (F64.volume pc)
              && PrimFloat.leb r F64.RSI_OVERSOLD
           then [F64.mkSignal "HAMMER" "LONG" (F64.close pc) (F64.ts pc) r
                   (F64.avg_vol pd df) (F64.volume pc)]
           else []
         else [])
        ++
        (if F64.is_shooting_star_candle pc then
           if tu && PrimFloat.ltb es ef && F64.vol_ok pd df (F64.volume pc)
              && PrimFloat.leb F64.RSI_OVERBOUGHT r
           then [F64.mkSignal "SHOOTING_STAR" "SHORT" (F64.close pc)
                   (F64.ts pc) r (F64.avg_vol pd df) (F64.volume pc)]
           else []
         else [])).
Proof.
  intros Hpd Hw df.
  assert (Hlen : length df = (length pre + 6)%nat).
  { unfold df. rewrite !length_app, Hw. simpl. lia. }
  destruct (nth_error_defined
              (F64.compute_ema pd (map F64.close df) F64.EMA_FAST)
              (length df - 2)) as (ef & Ef).
  { rewrite f64_length_compute_ema, length_map by exact Hpd. lia. }
  destruct (nth_error_defined
              (F64.compute_ema pd (map F64.close df) F64.EMA_SLOW)
              (length df - 2)) as (es & Es).
  { rewrite f64_length_compute_ema, length_map by exact Hpd. lia. }
  destruct (nth_error_defined
              (F64.compute_rsi pd (map F64.close df) F64.RSI_PERIOD)
              (length df - 2)) as (r & Er).
  { rewrite f64_length_compute_rsi, length_map by exact Hpd. lia. }
  assert (Hne : w <> []) by (intro E; rewrite E in Hw; discriminate).
  destruct (f64_trend_confirmation_returns w "down" 3 Hne) as (td & Etd).
  destruct (f64_trend_confirmation_returns w "up" 3 Hne) as (tu & Etu).
  exists ef, es, r, td, tu. repeat (split; [assumption|]).
  unfold F64.analyze_pair, F64.fetch_ohlcv_df. cbn [bind].
  assert (E6 : (length df <? 6)%nat = false) by (apply Nat.ltb_ge; lia).
  rewrite E6. cbv zeta.
  assert (Epc : F64.pattern_candle df = Ok pc)
    by (now apply f64_pattern_candle_app).
  assert (Etc : F64.trend_candles df = w)
    by (now apply f64_trend_candles_app).
  rewrite Epc, Etc. cbn [bind].
  rewrite (py_index_m2
             (F64.compute_ema pd (map F64.close df) F64.EMA_FAST) ef).
  2: rewrite f64_length_compute_ema, length_map by exact Hpd; lia.
  2: rewrite f64_length_compute_ema, length_map in * by exact Hpd; exact Ef.
  rewrite (py_index_m2
             (F64.compute_ema pd (map F64.close df) F64.EMA_SLOW) es).
  2: rewrite f64_length_compute_ema, length_map by exact Hpd; lia.
  2: rewrite f64_length_compute_ema, length_map in * by exact Hpd; exact Es.
  rewrite (py_index_m2
             (F64.compute_rsi pd (map F64.close df) F64.RSI_PERIOD) r).
  2: rewrite f64_length_compute_rsi, length_map by exact Hpd; lia.
  2: rewrite f64_length_compute_rsi, length_map in * by exact Hpd; exact Er.
  cbn [bind]. rewrite Etd, Etu. cbn [bind].
  destruct (F64.is_hammer_candle pc);
    destruct (td && PrimFloat.ltb ef es && F64.vol_ok pd df (F64.volume pc)
              && PrimFloat.leb r F64.RSI_OVERSOLD);
    destruct (F64.is_shooting_star_candle pc);
    destruct (tu && PrimFloat.ltb es ef && F64.vol_ok pd df (F64.volume pc)
              && PrimFloat.leb F64.RSI_OVERBOUGHT r);
    reflexivity.
Qed.

Lemma f64_length_plain_ewm_from (alpha prev : PrimFloat.float)
    (xs : list PrimFloat.float) :
  length (F64.plain_ewm_from alpha prev xs) = length xs.
Proof.
  revert prev. induction xs as [|x xs IH]; intro prev; simpl; auto.
Qed.

Lemma plain_pandas_returns_columns : F64.returns_columns F64.plain_pandas.
Proof.
  split.
  - intros w m xs. simpl. unfold F64.plain_rolling_mean.
    now rewrite length_map, length_seq.
  - intros span xs. simpl. unfold F64.plain_ewm_mean. cbv zeta.
    destruct xs; simpl; [reflexivity|].
    now rewrite f64_length_plain_ewm_from.
Qed.

(* Which signals are in the list the double model builds. *)
Lemma f64_signals_iff (b1 b2 b3 b4 : bool) (hs ss : F64.signal) :
  F64.typ hs = "HAMMER"%string -> F64.typ ss = "SHOOTING_STAR"%string ->
  let signals :=
    (if b1 then if b2 then [hs] else [] else [])
    ++ (if b3 then if b4 then [ss] else [] else []) in
  ((exists s, In s signals /\ F64.typ s = "HAMMER"%string)
   <-> b1 = true /\ b2 = true) /\
  ((exists s, In s signals /\ F64.typ s = "SHOOTING_STAR"%string)
   <-> b3 = true /\ b4 = true) /\
  (forall s, In s signals -> s = hs \/ s = ss).
Proof.
  intros Hh Hs signals. subst signals.
  assert (Dh : F64.typ hs <> "SHOOTING_STAR"%string)
    by (rewrite Hh; discriminate).
  assert (Ds : F64.typ ss <> "HAMMER"%string) by (rewrite Hs; discriminate).
  destruct b1, b2, b3, b4; simpl;
    (split; [|split]);
    try (split; [intros (s & Hin & Ht) | intros [E1 E2]]);
    try (intros s Hin);
    try discriminate;
    try (split; reflexivity);
    repeat match goal with
           | H : _ \/ _ |- _ => destruct H
           | H : False |- _ => destruct H
           end;
    subst; try tauto; try congruence; eauto.
Qed.

Lemma f64_pattern_candle_defined (df : list F64.candle) :
  (6 <= length df)%nat ->
  exists rest pc, df = rest ++ [pc] /\ F64.pattern_candle df = Ok pc.
Proof.
  intro H. destruct (split_last6 df H) as (pre & w & pc & -> & Hw).
  exists (pre ++ w), pc. split.
  - now rewrite app_assoc.
  - now apply f64_pattern_candle_app.
Qed.

Module F64Facts.
Import PrimFloat.

(** C5.  In the arithmetic of the code (IEEE doubles, every subtraction
    and product rounded), [is_hammer_candle] returns true exactly when the
    body |close - open| is not zero, the lower shadow
    min(open,close) - low exceeds 1.8 times the body and the upper shadow
    high - max(open,close) is below 0.6 times the body;
    [is_shooting_star_candle] is the mirror test; and on a candle whose
    body is zero both return false.  The candle invariant is not
    needed. *)
Theorem hammer_star_double_spec (c : F64.candle) :
  (F64.is_hammer_candle c = true <->
   (F64.body c =? 0)%float = false /\
   (F64.body c * F64.SHADOW_LONG <? F64.lower_shadow c)%float = true /\
   (F64.upper_shadow c <? F64.body c * F64.SHADOW_SHORT)%float = true) /\
  (F64.is_shooting_star_candle c = true <->
   (F64.body c =? 0)%float = false /\
   (F64.body c * F64.SHADOW_LONG <? F64.upper_shadow c)%float = true /\
   (F64.lower_shadow c <? F64.body c * F64.SHADOW_SHORT)%float = true) /\
  ((F64.body c =? 0)%float = true ->
   F64.is_hammer_candle c = false /\ F64.is_shooting_star_candle c = false).
Proof.
  unfold F64.is_hammer_candle, F64.is_shooting_star_candle, F64.body,
    F64.lower_shadow, F64.upper_shadow. cbv zeta.
  destruct (abs (F64.close c - F64.open c) =? 0)%float eqn:E.
  - repeat split; try discriminate; intros (H & _); discriminate.
  - rewrite !andb_true_iff. repeat split; try tauto; discriminate.
Qed.

Lemma hammer_star_double_spec_witness :
  F64.is_hammer_candle F64Data.doji = false /\
  F64.is_shooting_star_candle F64Data.doji = false.
Proof.
  apply (hammer_star_double_spec F64Data.doji). reflexivity.
Defined.

(* The constants are the doubles nearest to 1.8, 0.6 and 0.9: the
   correctly rounded quotients 18/10, 6/10 and 9/10. *)
Example double_constants :
  F64.SHADOW_LONG = (18 / 10)%float /\
  F64.SHADOW_SHORT = (6 / 10)%float /\
  F64.VOLUME_MULTIPLIER = (9 / 10)%float.
Proof. repeat split; reflexivity. Qed.

(* On the candle 10.9 / 19.3 / 10.6 / 13.9 the upper shadow and 1.8 times
   the body are the same double, so the code's star test fails, while on
   the exact values of the four doubles, in exact arithmetic, it
   succeeds. *)
Example star_test_at_a_tie :
  F64.is_shooting_star_candle F64Data.tie_candle = false /\
  F64.upper_shadow F64Data.tie_candle
  = (F64.body F64Data.tie_candle * F64.SHADOW_LONG)%float /\
  option_map is_shooting_star_candle (exact_candle F64Data.tie_candle)
  = Some true.
Proof. repeat split; vm_compute; reflexivity. Qed.

(** C7.  On a fetched series of at least six rows the volume filter passes
    exactly when, in doubles, VOLUME_MULTIPLIER (0.9) times the mean
    volume of the reference rows is at most the volume of the pattern
    candle; the reference rows are the last 20 rows when the series has at
    least 20, the whole series otherwise.  The mean is the one pandas
    computes. *)
Theorem volume_filter_double_spec (pd : F64.pandas) (df : list F64.candle) :
  (6 <= length df)%nat ->
  exists pc ref,
    F64.pattern_candle df = Ok pc /\
    (((20 <= length df)%nat /\
      exists pre w,
        df = pre ++ w /\ length w = 20%nat /\ ref = map F64.volume w)
     \/
     ((length df < 20)%nat /\ ref = map F64.volume df)) /\
    F64.avg_vol pd df = F64.mean pd ref /\
    (F64.vol_ok pd df (F64.volume pc) = true <->
     (F64.mean pd ref * F64.VOLUME_MULTIPLIER <=? F64.volume pc)%float
     = true).
Proof.
  intro H.
  destruct (f64_pattern_candle_defined df H) as (rest & pc & Edf & Epc).
  destruct (Nat.lt_ge_cases (length df) 20) as [Hs|Hl].
  - exists pc, (map F64.volume df).
    assert (Ea : F64.avg_vol pd df = F64.mean pd (map F64.volume df)).
    { unfold F64.avg_vol.
      assert (E : (20 <=? length df)%nat = false) by (apply Nat.leb_gt; lia).
      now rewrite E. }
    split; [exact Epc|]. split; [right; auto|]. split; [exact Ea|].
    unfold F64.vol_ok. rewrite Ea. reflexivity.
  - set (pre := firstn (length df - 20) df).
    set (w := skipn (length df - 20) df).
    assert (Ew : df = pre ++ w) by (symmetry; apply firstn_skipn).
    assert (Hw : length w = 20%nat) by (unfold w; rewrite length_skipn; lia).
    exists pc, (map F64.volume w).
    assert (Ea : F64.avg_vol pd df = F64.mean pd (map F64.volume w)).
    { unfold F64.avg_vol.
      assert (E : (20 <=? length df)%nat = true) by (apply Nat.leb_le; lia).
      rewrite E. rewrite Ew at 1.
      rewrite map_app, iloc_tail_app by (now rewrite length_map).
      reflexivity. }
    split; [exact Epc|]. split; [left; split; [exact Hl|]; eauto|].
    split; [exact Ea|]. unfold F64.vol_ok. rewrite Ea. reflexivity.
Qed.

Lemma volume_filter_double_spec_witness :
  exists pc ref,
    F64.pattern_candle F64Data.tie_volumes = Ok pc /\
    (((20 <= length F64Data.tie_volumes)%nat /\
      exists pre w,
        F64Data.tie_volumes = pre ++ w /\ length w = 20%nat /\
        ref = map F64.volume w)
     \/
     ((length F64Data.tie_volumes < 20)%nat /\
      ref = map F64.volume F64Data.tie_volumes)) /\
    F64.avg_vol F64.plain_pandas F64Data.tie_volumes
    = F64.mean F64.plain_pandas ref /\
    (F64.vol_ok F64.plain_pandas F64Data.tie_volumes (F64.volume pc) = true
     <->
     (F64.mean F64.plain_pandas ref * F64.VOLUME_MULTIPLIER
      <=? F64.volume pc)%float = true).
Proof.
  apply (volume_filter_double_spec F64.plain_pandas F64Data.tie_volumes).
  vm_compute. lia.
Defined.

(* Eighteen volumes with sum 1200 and last volume 60: the mean is the
   double 66.66666666666667, 0.9 times it is the double 60.00000000000001
   and the filter fails, while in exact arithmetic 0.9 times the mean is
   60 and the filter passes. *)
Example volume_filter_at_a_tie :
  F64.avg_vol F64.plain_pandas F64Data.tie_volumes = (1200 / 18)%float /\
  F64.vol_ok F64.plain_pandas F64Data.tie_volumes 60 = false /\
  vol_ok (exact_series F64Data.tie_volumes) 60 = true.
Proof. repeat split; vm_compute; reflexivity. Qed.

(** C1.  On a fetched series of at least six rows, written
    pre ++ w ++ [pc] with w the five rows before the pattern candle pc,
    [analyze_pair] returns a list that holds a HAMMER signal exactly when
    all five conditions hold, each as the code computes it in doubles: pc
    has the hammer shape, the trend confirmation "down" succeeds on w,
    0.9 times the average volume is at most the volume of pc, the fast EMA
    at the row right before pc (row length pre + 4) is strictly below the
    slow EMA there, and the RSI there is <= 40 (a NaN fails).  Every
    HAMMER signal is LONG at the close of pc.  The same holds for
    SHOOTING_STAR / SHORT with the mirrored shape, the trend confirmation
    "up", the same volume condition, fast EMA strictly above slow EMA and
    RSI >= 60.  The pandas primitives are any functions that return
    columns as long as their series. *)
Theorem analyze_pair_double_signal_iff (pd : F64.pandas)
    (df : list F64.candle) :
  F64.returns_columns pd -> (6 <= length df)%nat ->
  exists pre w pc ema_fast ema_slow rsi_val signals,
    df = pre ++ w ++ [pc] /\ length w = 5%nat /\
    nth_error (F64.compute_ema pd (map F64.close df) F64.EMA_FAST)
      (length pre + 4) = Some ema_fast /\
    nth_error (F64.compute_ema pd (map F64.close df) F64.EMA_SLOW)
      (length pre + 4) = Some ema_slow /\
    nth_error (F64.compute_rsi pd (map F64.close df) F64.RSI_PERIOD)
      (length pre + 4) = Some rsi_val /\
    F64.analyze_pair pd (Ok df) = Ok signals /\
    ((exists s, In s signals /\ F64.typ s = "HAMMER"%string) <->
     F64.is_hammer_candle pc = true /\
     F64.trend_confirmation w "down" 3 = Ok true /\
     (F64.avg_vol pd df * F64.VOLUME_MULTIPLIER <=? F64.volume pc)%float
     = true /\
     (ema_fast <? ema_slow)%float = true /\
     (rsi_val <=? 40)%float = true) /\
    (forall s, In s signals -> F64.typ s = "HAMMER"%string ->
               F64.direction s = "LONG"%string /\
               F64.price s = F64.close pc) /\
    ((exists s, In s signals /\ F64.typ s = "SHOOTING_STAR"%string) <->
     F64.is_shooting_star_candle pc = true /\
     F64.trend_confirmation w "up" 3 = Ok true /\
     (F64.avg_vol pd df * F64.VOLUME_MULTIPLIER <=? F64.volume pc)%float
     = true /\
     (ema_slow <? ema_fast)%float = true /\
     (60 <=? rsi_val)%float = true) /\
    (forall s, In s signals -> F64.typ s = "SHOOTING_STAR"%string ->
               F64.direction s = "SHORT"%string /\
               F64.price s = F64.close pc).
Proof.
  intros Hpd H. destruct (split_last6 df H) as (pre & w & pc & Edf & Hw).
  destruct (f64_analyze_pair_eval pd pre w pc Hpd Hw)
    as (ef & es & r & td & tu & Ef & Es & Er & Etd & Etu & Ea).
  rewrite <- Edf in Ef, Es, Er, Ea.
  assert (Hlen : (length df - 2 = length pre + 4)%nat).
  { rewrite Edf, !length_app, Hw. simpl. lia. }
  rewrite Hlen in Ef, Es, Er.
  exists pre, w, pc, ef, es, r. eexists.
  repeat (split; [eassumption|]).
  destruct (f64_signals_iff
              (F64.is_hammer_candle pc)
              (td && (ef <? es)%float && F64.vol_ok pd df (F64.volume pc)
               && (r <=? F64.RSI_OVERSOLD)%float)
              (F64.is_shooting_star_candle pc)
              (tu && (es <? ef)%float && F64.vol_ok pd df (F64.volume pc)
               && (F64.RSI_OVERBOUGHT <=? r)%float)
              (F64.mkSignal "HAMMER" "LONG" (F64.close pc) (F64.ts pc) r
                 (F64.avg_vol pd df) (F64.volume pc))
              (F64.mkSignal "SHOOTING_STAR" "SHORT" (F64.close pc)
                 (F64.ts pc) r (F64.avg_vol pd df) (F64.volume pc))
              eq_refl eq_refl) as (Hh & Hs & Hall).
  change (40)%float with F64.RSI_OVERSOLD.
  change (60)%float with F64.RSI_OVERBOUGHT.
  fold (F64.vol_ok pd df (F64.volume pc)).
  split; [|split; [|split]].
  - rewrite Hh, !andb_true_iff, Etd.
    split; [intros (? & (((-> & ?) & ?) & ?)); auto |].
    intros (? & E & ? & ? & ?). injection E as ->. auto.
  - intros s Hin Ht. destruct (Hall s Hin) as [->| ->].
    + split; reflexivity.
    + discriminate Ht.
  - rewrite Hs, !andb_true_iff, Etu.
    split; [intros (? & (((-> & ?) & ?) & ?)); auto |].
    intros (? & E & ? & ? & ?). injection E as ->. auto.
  - intros s Hin Ht. destruct (Hall s Hin) as [->| ->].
    + discriminate Ht.
    + split; reflexivity.
Qed.

Lemma analyze_pair_double_signal_iff_witness :
  exists pre w pc ema_fast ema_slow rsi_val signals,
    F64Data.scenario_df = pre ++ w ++ [pc] /\ length w = 5%nat /\
    nth_error (F64.compute_ema F64.plain_pandas
                 (map F64.close F64Data.scenario_df) F64.EMA_FAST)
      (length pre + 4) = Some ema_fast /\
    nth_error (F64.compute_ema F64.plain_pandas
                 (map F64.close F64Data.scenario_df) F64.EMA_SLOW)
      (length pre + 4) = Some ema_slow /\
    nth_error (F64.compute_rsi F64.plain_pandas
                 (map F64.close F64Data.scenario_df) F64.RSI_PERIOD)
      (length pre + 4) = Some rsi_val /\
    F64.analyze_pair F64.plain_pandas (Ok F64Data.scenario_df)
    = Ok signals /\
    ((exists s, In s signals /\ F64.typ s = "HAMMER"%string) <->
     F64.is_hammer_candle pc = true /\
     F64.trend_confirmation w "down" 3 = Ok true /\
     (F64.avg_vol F64.plain_pandas F64Data.scenario_df
      * F64.VOLUME_MULTIPLIER <=? F64.volume pc)%float = true /\
     (ema_fast <? ema_slow)%float = true /\
     (rsi_val <=? 40)%float = true) /\
    (forall s, In s signals -> F64.typ s = "HAMMER"%string ->
               F64.direction s = "LONG"%string /\
               F64.price s = F64.close pc) /\
    ((exists s, In s signals /\ F64.typ s = "SHOOTING_STAR"%string) <->
     F64.is_shooting_star_candle pc = true /\
     F64.trend_confirmation w "up" 3 = Ok true /\
     (F64.avg_vol F64.plain_pandas F64Data.scenario_df
      * F64.VOLUME_MULTIPLIER <=? F64.volume pc)%float = true /\
     (ema_slow <? ema_fast)%float = true /\
     (60 <=? rsi_val)%float = true) /\
    (forall s, In s signals -> F64.typ s = "SHOOTING_STAR"%string ->
               F64.direction s = "SHORT"%string /\
               F64.price s = F64.close pc).
Proof.
  apply (analyze_pair_double_signal_iff F64.plain_pandas
           F64Data.scenario_df).
  - exact plain_pandas_returns_columns.
  - vm_compute. lia.
Defined.

(* The falling market followed by the hammer gives one HAMMER / LONG
   signal at 99 in doubles too. *)
Example analyze_pair_double_scenario :
  F64.analyze_pair F64.plain_pandas (Ok F64Data.scenario_df)
  = Ok [F64.mkSignal "HAMMER" "LONG" 99 14400000 0 10 10].
Proof. vm_compute. reflexivity. Qed.

End F64Facts.
